(** * ParallelFDTD: the application layer [App.cpp]

    A shallow embedding of [src/App.cpp]: the memory check and the partition
    decision of [App::initializeMesh], the stepping functions
    [App::invertTime], [App::executeStep] and [App::runCapture], and the
    slice renderer [App::saveBitmap].

    Machine integers are [Z] with the wrap-around written out, [float] is
    IEEE binary32 through the parametric operations of [SpecFloat], vectors
    are lists read and updated by index.  Calls into the CUDA kernel layer,
    whose sources are other files, are arguments of the functions that make
    them. *)

From Stdlib Require Import ZArith Lia Bool String DecimalString.
From Stdlib Require Import DecimalPos DecimalN.
From Stdlib Require Import Floats.SpecFloat.
From stdpp Require Import base numbers list gmap.

Local Open Scope Z_scope.

(** ** Machine integers *)

Module Machine.

Definition UINT_MOD : Z := 2 ^ 32.
Definition INT_MIN : Z := - 2 ^ 31.
Definition INT_MAX : Z := 2 ^ 31 - 1.

(** Conversion to [unsigned int]: the value modulo 2^32. *)
Definition wrap_uint (z : Z) : Z := z mod UINT_MOD.

(** Conversion to [int], two's complement.  Signed overflow is undefined
    in C++; the model gives it the value the hardware produces. *)
Definition wrap_int (z : Z) : Z :=
  (z + 2 ^ 31) mod UINT_MOD - 2 ^ 31.

Definition is_uint (z : Z) : Prop := 0 <= z < UINT_MOD.
Definition is_int (z : Z) : Prop := INT_MIN <= z <= INT_MAX.

End Machine.

(** ** Single-precision floats *)

Module Float32.

Definition float32 : Type := spec_float.

Definition prec : Z := 24.
Definition emax : Z := 128.

Definition zero : float32 := S754_zero false.
Definition add : float32 -> float32 -> float32 := SFadd prec emax.
Definition mul : float32 -> float32 -> float32 := SFmul prec emax.
Definition div : float32 -> float32 -> float32 := SFdiv prec emax.
Definition ltb : float32 -> float32 -> bool := SFltb.

(** Conversion of an integer to [float], rounding to nearest even. *)
Definition of_Z (z : Z) : float32 := binary_normalize prec emax z 0 false.

(** Truncation toward zero of a finite value; infinities and NaN, for
    which the C++ conversion is undefined, give 0. *)
Definition trunc (f : float32) : Z :=
  match f with
  | S754_finite s m e =>
      let a := if 0 <=? e then Z.pos m * 2 ^ e else Z.pos m / 2 ^ (- e) in
      if s then - a else a
  | _ => 0
  end.

(** [(unsigned int) f]: truncation; a value outside the range of the
    type, undefined in C++, is reduced modulo 2^32. *)
Definition to_uint (f : float32) : Z := Machine.wrap_uint (trunc f).

(** [(unsigned char) f], in the same way modulo 2^8. *)
Definition to_uchar (f : float32) : Z := trunc f mod 256.

End Float32.

Import Machine.
Abbreviation float32 := Float32.float32.

(** ** Data of the application *)

Module nv.
Record Vec3f : Type := mkVec3f { x : float32; y : float32; z : float32 }.
End nv.

(** Modelled from the spec: the geometry class is declared in another file;
    [App.cpp] reads its bounding box only. *)
Record Geometry : Type := mkGeometry { getBoundingBox : nv.Vec3f }.

(** Modelled from the spec: [SimulationParameters] is declared in another
    file; these are the members [App.cpp] reads: grid spacing, requested step
    count and receiver count. *)
Record SimulationParameters : Type := mkParameters {
  getDx : float32;
  getNumSteps : Z;
  getNumReceivers : Z
}.

(** Modelled from the spec: [CudaMesh] is declared in another file; the mesh
    owns a precision flag, an element count, a partition count and the
    pressure field. *)
Record CudaMesh : Type := mkMesh {
  isDouble : bool;
  getNumberOfElements : Z;
  getNumberOfPartitions : Z;
  pressures : list float32
}.

Definition setDouble (b : bool) (m : CudaMesh) : CudaMesh :=
  {| isDouble := b;
     getNumberOfElements := getNumberOfElements m;
     getNumberOfPartitions := getNumberOfPartitions m;
     pressures := pressures m |}.

Definition makePartition (n : Z) (m : CudaMesh) : CudaMesh :=
  {| isDouble := isDouble m;
     getNumberOfElements := getNumberOfElements m;
     getNumberOfPartitions := n;
     pressures := pressures m |}.

(** Modelled from the spec: the members of [App] are declared in [App.h];
    their types are read off their uses in [App.cpp]: [int] for the device
    count, the device memory sizes, the forced partition count and the step
    direction, [unsigned int] for the element count and the step counter,
    [float] for the timing estimate, the responses and the capture range. *)
Record App : Type := mkApp {
  m_geometry : Geometry;
  m_mesh : CudaMesh;
  m_parameters : SimulationParameters;
  responses_ : list float32;
  time_per_step_ : float32;
  num_elements_ : Z;
  current_step_ : Z;
  step_direction_ : Z;
  number_of_devices_ : Z;
  device_mem_sizes_ : list Z;
  force_partition_to_ : Z;
  capture_db_ : float32
}.

Definition with_mesh (m : CudaMesh) (a : App) : App :=
  mkApp (m_geometry a) m (m_parameters a) (responses_ a) (time_per_step_ a)
        (num_elements_ a) (current_step_ a) (step_direction_ a)
        (number_of_devices_ a) (device_mem_sizes_ a) (force_partition_to_ a)
        (capture_db_ a).

Definition with_responses (r : list float32) (a : App) : App :=
  mkApp (m_geometry a) (m_mesh a) (m_parameters a) r (time_per_step_ a)
        (num_elements_ a) (current_step_ a) (step_direction_ a)
        (number_of_devices_ a) (device_mem_sizes_ a) (force_partition_to_ a)
        (capture_db_ a).

Definition with_time_per_step (t : float32) (a : App) : App :=
  mkApp (m_geometry a) (m_mesh a) (m_parameters a) (responses_ a) t
        (num_elements_ a) (current_step_ a) (step_direction_ a)
        (number_of_devices_ a) (device_mem_sizes_ a) (force_partition_to_ a)
        (capture_db_ a).

Definition with_num_elements (n : Z) (a : App) : App :=
  mkApp (m_geometry a) (m_mesh a) (m_parameters a) (responses_ a)
        (time_per_step_ a) n (current_step_ a) (step_direction_ a)
        (number_of_devices_ a) (device_mem_sizes_ a) (force_partition_to_ a)
        (capture_db_ a).

Definition with_current_step (s : Z) (a : App) : App :=
  mkApp (m_geometry a) (m_mesh a) (m_parameters a) (responses_ a)
        (time_per_step_ a) (num_elements_ a) s (step_direction_ a)
        (number_of_devices_ a) (device_mem_sizes_ a) (force_partition_to_ a)
        (capture_db_ a).

Definition with_step_direction (d : Z) (a : App) : App :=
  mkApp (m_geometry a) (m_mesh a) (m_parameters a) (responses_ a)
        (time_per_step_ a) (num_elements_ a) (current_step_ a) d
        (number_of_devices_ a) (device_mem_sizes_ a) (force_partition_to_ a)
        (capture_db_ a).

(** The members hold values of their C++ types. *)
Record well_typed (a : App) : Prop := mkWellTyped {
  wt_num_elements : is_uint (num_elements_ a);
  wt_current_step : is_uint (current_step_ a);
  wt_step_direction : is_int (step_direction_ a);
  wt_number_of_devices : is_int (number_of_devices_ a);
  wt_force_partition : is_int (force_partition_to_ a)
}.

(** ** Outcomes and calls into the other layers *)

(** A function returns, or leaves by [throw(-1)], or by the
    [std::out_of_range] of [vector::at]. *)
Inductive result (A : Type) : Type :=
| Ok (a : A)
| ThrowInt (code : Z)
| ThrowOutOfRange.
Arguments Ok {A} a.
Arguments ThrowInt {A} code.
Arguments ThrowOutOfRange {A}.

(** The calls that leave [App.cpp], in program order. *)
Inductive Event : Type :=
| EvClose                         (* App::close: devices reset *)
| EvVoxelize                      (* voxelizeGeometry: device allocation *)
| EvSetupMesh (double : bool)     (* setupMesh / setupMeshDouble *)
| EvMakePartition (n : Z)         (* CudaMesh::makePartition(n) *)
| EvExecuteStep (step : Z)        (* App::executeStep at this counter *)
| EvInterrupt (answer : bool).    (* one poll of the interrupt callback *)

Definition allocates (e : Event) : bool :=
  match e with
  | EvVoxelize | EvSetupMesh _ | EvMakePartition _ => true
  | _ => false
  end.

Definition Run (A : Type) : Type := (result A * list Event)%type.

(** ** The layers below the application *)

(** The CUDA kernel layer ([kernels/*.h]) as the application sees it:
    - [voxelized_elements g dx]: the element count of the mesh set up from
      the voxelization of [g] at grid spacing [dx];
    - [launchFDTD3dStep mesh params responses step direction]: one step of
      the solver, which updates the mesh and the response buffer;
    - [captureSliceFast] and [captureMesh], given the mesh and the step
      counter. *)
Class KernelLayer : Type := {
  voxelized_elements : Geometry -> float32 -> Z;
  launchFDTD3dStep :
    CudaMesh -> SimulationParameters -> list float32 -> Z -> Z ->
    CudaMesh * list float32;
  captureSliceFast : CudaMesh -> Z -> CudaMesh;
  captureMesh : CudaMesh -> Z -> CudaMesh
}.

(** [CLOCKS_PER_SEC] of [<ctime>], the value POSIX fixes. *)
Definition CLOCKS_PER_SEC : Z := 1000000.

(** ** [App::initializeMesh] *)

(** [bbox.x/dx * bbox.y/dx * bbox.z/dx], evaluated left to right in
    [float] and converted to [unsigned int]. *)
Definition estimated_nodes (app : App) : Z :=
  let dx := getDx (m_parameters app) in
  let bb := getBoundingBox (m_geometry app) in
  Float32.to_uint
    (Float32.div
       (Float32.mul
          (Float32.div
             (Float32.mul (Float32.div (nv.x bb) dx) (nv.y bb)) dx)
          (nv.z bb))
       dx).

(** [estimated_nodes*8/1000000] and [estimated_nodes*18/1000000]: the
    product and the quotient are [unsigned int], the result is stored in an
    [int]. *)
Definition mesh_size_in_MB (nodes : Z) : Z :=
  wrap_int (wrap_uint (nodes * 8) / 1000000).

Definition mesh_size_in_MB_double (nodes : Z) : Z :=
  wrap_int (wrap_uint (nodes * 18) / 1000000).

(** The same footprints without the 32-bit wrap-around. *)
Definition exact_size_in_MB (nodes : Z) : Z := nodes * 8 / 1000000.
Definition exact_size_in_MB_double (nodes : Z) : Z := nodes * 18 / 1000000.

(** The footprint of the configured precision, as the check computes it. *)
Definition footprint_MB (app : App) : Z :=
  if isDouble (m_mesh app)
  then mesh_size_in_MB_double (estimated_nodes app)
  else mesh_size_in_MB (estimated_nodes app).

(** The loop [for(i = 0; i < number_of_devices_; i++)
    total_mem += device_mem_sizes_.at(i)]; [None] is the exception of
    [at]. *)
Fixpoint total_mem_loop (sizes : list Z) (count i : nat) (total : Z)
  : option Z :=
  match count with
  | O => Some total
  | S count' =>
      match sizes !! i with
      | Some m => total_mem_loop sizes count' (S i) (wrap_int (total + m))
      | None => None
      end
  end.

Definition total_mem (app : App) : option Z :=
  total_mem_loop (device_mem_sizes_ app)
                 (Z.to_nat (number_of_devices_ app)) 0%nat 0.

(** Lines 160-174: the sum and the two tests.  [Ok total] when both tests
    pass. *)
Definition memory_check (app : App) : Run Z :=
  let nodes := estimated_nodes app in
  match total_mem app with
  | None => (ThrowOutOfRange, [])
  | Some total =>
      if total <? mesh_size_in_MB nodes then (ThrowInt (-1), [EvClose])
      else if isDouble (m_mesh app) && (total <? mesh_size_in_MB_double nodes)
      then (ThrowInt (-1), [EvClose])
      else (Ok total, [])
  end.

(** Modelled from the spec: [setupMesh] and [setupMeshDouble] are defined in
    the kernel layer; they set the mesh up from the voxelization, after
    which the mesh reports the element count of the voxel grid. *)
Definition setupMesh `{KernelLayer} (app : App) : CudaMesh :=
  let m := m_mesh app in
  {| isDouble := isDouble m;
     getNumberOfElements :=
       voxelized_elements (m_geometry app) (getDx (m_parameters app));
     getNumberOfPartitions := getNumberOfPartitions m;
     pressures := pressures m |}.

(** [element_limit]: [(unsigned int)90e6], halved for a double mesh. *)
Definition element_limit (double : bool) : Z :=
  let element_limit := 90000000 in
  if double then element_limit / 2 else element_limit.

(** The test of line 222 on the forced partition count. *)
Definition forced_accepted (app : App) : bool :=
  negb (force_partition_to_ app =? -1)
  && (force_partition_to_ app <=? number_of_devices_ app).

(** Lines 222-233: the argument [makePartition] is called with. *)
Definition partition_count (number_of_partitions : Z) (app : App) : Z :=
  if forced_accepted app then force_partition_to_ app
  else if num_elements_ app <? element_limit (isDouble (m_mesh app)) then 1
  else number_of_partitions.

Definition initializeMesh `{KernelLayer} (number_of_partitions : Z)
  (app : App) : Run App :=
  match memory_check app with
  | (Ok _, evs) =>
      let mesh := setupMesh app in
      let app := with_mesh mesh app in
      let app := with_num_elements (wrap_uint (getNumberOfElements mesh)) app in
      let n := partition_count number_of_partitions app in
      (Ok (with_mesh (makePartition n (m_mesh app)) app),
       evs ++ [EvVoxelize; EvSetupMesh (isDouble mesh); EvMakePartition n])
  | (ThrowInt c, evs) => (ThrowInt c, evs)
  | (ThrowOutOfRange, evs) => (ThrowOutOfRange, evs)
  end.

(** ** Stepping *)

(** [step_direction_ *= -1]. *)
Definition invertTime (app : App) : App :=
  with_step_direction (wrap_int (step_direction_ app * -1)) app.

(** [(float)end_t/CLOCKS_PER_SEC]: the measured ticks in seconds. *)
Definition seconds (end_t : Z) : float32 :=
  Float32.div (Float32.of_Z end_t) (Float32.of_Z CLOCKS_PER_SEC).

(** [App::executeStep]; [end_t] is the number of clock ticks the step is
    measured to take, [clock()-start_t]. *)
Definition executeStep `{KernelLayer} (end_t : Z) (app : App) : App :=
  let '(mesh, responses) :=
    launchFDTD3dStep (m_mesh app) (m_parameters app) (responses_ app)
                     (current_step_ app) (step_direction_ app) in
  let app := with_responses responses (with_mesh mesh app) in
  let app :=
    with_current_step (wrap_uint (current_step_ app + step_direction_ app))
                      app in
  let app :=
    with_mesh (captureSliceFast (m_mesh app) (current_step_ app)) app in
  let app := with_mesh (captureMesh (m_mesh app) (current_step_ app)) app in
  with_time_per_step
    (Float32.div (Float32.add (time_per_step_ app) (seconds end_t))
                 (Float32.of_Z 2))
    app.

(** Consecutive calls of [executeStep], one per measured duration. *)
Definition executeSteps `{KernelLayer} (ticks : list Z) (app : App) : App :=
  foldl (fun a t => executeStep t a) app ticks.

(** What [App::runCapture] reads from outside the program: the answer of
    the interrupt callback at each poll, and the clock. *)
Record Surroundings : Type := mkSurroundings {
  interrupt_at : nat -> bool;
  step_ticks : nat -> Z;
  run_ticks : Z
}.

(** The loop of [runCapture]: [remaining] iterations are left, [i] is the
    loop counter. *)
Fixpoint capture_loop `{KernelLayer} (env : Surroundings)
  (remaining i : nat) (app : App) : App * list Event :=
  match remaining with
  | O => (app, [])
  | S remaining' =>
      let app' := executeStep (step_ticks env i) app in
      if interrupt_at env i
      then (app', [EvExecuteStep (current_step_ app); EvInterrupt true])
      else
        let '(final, evs) := capture_loop env remaining' (S i) app' in
        (final, EvExecuteStep (current_step_ app) :: EvInterrupt false :: evs)
  end.

(** The state in which the loop of [runCapture] starts: the responses are
    [numSteps * numReceivers] zeros. *)
Definition zero_responses (app : App) : App :=
  with_responses
    (replicate
       (Z.to_nat (wrap_uint (getNumSteps (m_parameters app)
                             * getNumReceivers (m_parameters app))))
       Float32.zero)
    app.

Definition runCapture `{KernelLayer} (env : Surroundings) (app : App)
  : Run App :=
  let app := with_mesh (setDouble false (m_mesh app)) app in
  match initializeMesh 2 app with
  | (Ok app, evs) =>
      let step := wrap_uint (getNumSteps (m_parameters app)) in
      let app := zero_responses app in
      let '(app, evs') := capture_loop env (Z.to_nat step) 0%nat app in
      let app :=
        with_time_per_step
          (Float32.div (seconds (run_ticks env)) (Float32.of_Z step)) app in
      (Ok app, evs ++ evs')
  | (ThrowInt c, evs) => (ThrowInt c, evs)
  | (ThrowOutOfRange, evs) => (ThrowOutOfRange, evs)
  end.

(** The calls of a loop that runs [n] steps from the counter [first] with
    the interrupt callback answering no, and of one that is then
    interrupted after one more step. *)
Fixpoint polled_steps (first : Z) (n : nat) : list Event :=
  match n with
  | O => []
  | S n' =>
      EvExecuteStep first :: EvInterrupt false :: polled_steps (first + 1) n'
  end.

Definition interrupted_steps (first : Z) (n : nat) : list Event :=
  polled_steps first n
  ++ [EvExecuteStep (first + Z.of_nat n); EvInterrupt true].

(** Modelled from the spec: [launchFDTD3dStep] is defined in the kernel
    layer.  The response buffer holds [numSteps * numReceivers] samples
    indexed by step and receiver, and the step kernel produces the receiver
    samples of the step it is given: with [entry step receiver] the place of
    a sample in the buffer, a step writes the entries of its own step index
    only, entries lie inside the buffer, and entries of different steps are
    different places. *)
Record StepKernelContract `{KernelLayer} (entry : Z -> Z -> nat)
  (params : SimulationParameters) : Prop := mkStepKernelContract {
  kernel_frame :
    forall mesh responses step direction (i : nat),
      (forall receiver, 0 <= receiver < getNumReceivers params ->
                        i <> entry step receiver) ->
      (launchFDTD3dStep mesh params responses step direction).2 !! i
      = responses !! i;
  entry_in_buffer :
    forall step receiver,
      0 <= step < getNumSteps params ->
      0 <= receiver < getNumReceivers params ->
      (entry step receiver
       < Z.to_nat (getNumSteps params * getNumReceivers params))%nat;
  entry_of_one_step :
    forall step step' receiver receiver',
      0 <= step < getNumSteps params ->
      0 <= step' < getNumSteps params ->
      0 <= receiver < getNumReceivers params ->
      0 <= receiver' < getNumReceivers params ->
      entry step receiver = entry step' receiver' -> step = step'
}.

(** ** [App::saveBitmap] *)

(** The C library's [log10] on [float]. *)
Class MathLibrary : Type := { log10 : float32 -> float32 }.

Module TGAImage.

Record Colour : Type := mkColour { r : Z; g : Z; b : Z; a : Z }.

(** Modelled from the spec: [TGAImage] is declared in another file; an
    image is a width x height pixel grid, written one pixel at a time, and
    a pixel keeps the colour of the last [setPixel] on its coordinates. *)
Record Image : Type := mkImage {
  m_width : Z;
  m_height : Z;
  m_pixels : gmap (Z * Z) Colour
}.

(** [new TGAImage(width, height)], both of type [short]. *)
Definition create (width height : Z) : Image :=
  {| m_width := width; m_height := height; m_pixels := ∅ |}.

Definition setPixel (co : Colour) (x y : Z) (img : Image) : Image :=
  {| m_width := m_width img; m_height := m_height img;
     m_pixels := <[(x, y) := co]> (m_pixels img) |}.

Definition getPixel (img : Image) (x y : Z) : option Colour :=
  m_pixels img !! (x, y).

End TGAImage.

Import TGAImage.

(** Conversion to [short], two's complement on 16 bits. *)
Definition wrap_short (z : Z) : Z := (z + 2 ^ 15) mod 2 ^ 16 - 2 ^ 15.

(** [data[k]] and [position_data[k]]; a read past the end, undefined in
    C++, gives 0. *)
Definition read_float (data : list float32) (k : Z) : float32 :=
  default Float32.zero (data !! Z.to_nat k).

Definition read_uchar (position_data : list Z) (k : Z) : Z :=
  default 0 (position_data !! Z.to_nat k).

(** The test of line 508: the top bit of the position byte is set and its
    low seven bits are not 6. *)
Definition is_boundary (c_pos : Z) : bool :=
  (Z.shiftr c_pos 7 =? 1) && negb (Z.land c_pos 127 =? 6).

(** The body of the inner loop, lines 505-539, for the pixel of row [i] and
    column [j]. *)
Definition render_pixel `{MathLibrary} (dB : float32) (data : list float32)
  (position_data : list Z) (dim_x i j : Z) (img : Image) : Image :=
  let c := read_float data (wrap_uint (i * dim_x + j)) in
  let c_pos := read_uchar position_data (wrap_uint (i * dim_x + j)) in
  if is_boundary c_pos
  then setPixel (mkColour 255 255 255 255) i j img
  else
    let img := setPixel (mkColour 0 0 0 255) i j img in
    let sign :=
      if Float32.ltb Float32.zero c
      then Float32.of_Z 1 else Float32.of_Z (-1) in
    let c := Float32.div (Float32.add (log10 (Float32.mul c c)) dB) dB in
    let c := if Float32.ltb Float32.zero c then c else Float32.zero in
    let _c := if SFleb Float32.zero sign then c else Float32.zero in
    let c_ := if Float32.ltb sign Float32.zero then c else Float32.zero in
    let co :=
      mkColour 0
               (Float32.to_uchar (Float32.mul _c (Float32.of_Z 255)))
               (Float32.to_uchar (Float32.mul c_ (Float32.of_Z 255)))
               255 in
    setPixel co i j img.

(** The two nested loops, lines 503-541. *)
Definition render_row `{MathLibrary} (dB : float32) (data : list float32)
  (position_data : list Z) (dim_x i : Z) (img : Image) : Image :=
  foldl (fun img j => render_pixel dB data position_data dim_x i j img)
        img (seqZ 0 dim_x).

Definition render_rows `{MathLibrary} (dB : float32) (data : list float32)
  (position_data : list Z) (dim_x dim_y : Z) (img : Image) : Image :=
  foldl (fun img i => render_row dB data position_data dim_x i img)
        img (seqZ 0 dim_y).

(** The decimal digits [operator<<] prints for an [unsigned int]. *)
Definition decimal (n : Z) : string :=
  NilZero.string_of_uint (N.to_uint (Z.to_N n)).

(** ["capture_" << orientation << "_" << step << "_" << slice << ".tga"]. *)
Definition capture_name (orientation step slice : Z) : string :=
  ("capture_" ++ decimal orientation ++ "_" ++ decimal step ++ "_"
   ++ decimal slice ++ ".tga")%string.

(** [App::saveBitmap]: the name and the content of the file written.  The
    two loops over the sources and the receivers (lines 544-562) assign
    locals that are never read. *)
Definition saveBitmap `{MathLibrary} (app : App) (data : list float32)
  (position_data : list Z) (dim_x dim_y slice orientation step : Z)
  : string * Image :=
  let img := create (wrap_short dim_x) (wrap_short dim_y) in
  let dB := Float32.div (capture_db_ app) (Float32.of_Z 10) in
  let img := render_rows dB data position_data dim_x dim_y img in
  (capture_name orientation step slice, img).

(** The claim's words for a field pixel: the intensity
    [max(0, (log10(pressure^2) + dB) / dB)]. *)
Definition max0 (f : float32) : float32 :=
  if Float32.ltb Float32.zero f then f else Float32.zero.

Definition intensity `{MathLibrary} (dB pressure : float32) : float32 :=
  max0 (Float32.div
          (Float32.add (log10 (Float32.mul pressure pressure)) dB) dB).

(** A channel of brightness [c]: [(unsigned char)(c*255)]. *)
Definition brightness (c : float32) : Z :=
  Float32.to_uchar (Float32.mul c (Float32.of_Z 255)).

(** The claim's words for the pixel of row [i] and column [j]: opaque white
    on a boundary cell, and otherwise the brightness of the intensity on the
    green channel for a positive pressure and on the blue channel for any
    other. *)
Definition pixel_colour `{MathLibrary} (dB : float32) (data : list float32)
  (position_data : list Z) (dim_x i j : Z) : Colour :=
  let pressure := read_float data (wrap_uint (i * dim_x + j)) in
  let c_pos := read_uchar position_data (wrap_uint (i * dim_x + j)) in
  if is_boundary c_pos then mkColour 255 255 255 255
  else if Float32.ltb Float32.zero pressure
       then mkColour 0 (brightness (intensity dB pressure)) 0 255
       else mkColour 0 0 (brightness (intensity dB pressure)) 255.

(** ** Concrete surroundings, used to run the model *)

Module Demo.

Definition one : float32 := Float32.of_Z 1.

(** A kernel layer for a single receiver: a step stores the sample 1.0 at
    the entry of its step index and leaves the mesh alone. *)
#[global] Instance kernels : KernelLayer := {|
  voxelized_elements := fun _ _ => 1000;
  launchFDTD3dStep := fun mesh _ responses step _ =>
    (mesh, <[Z.to_nat step := one]> responses);
  captureSliceFast := fun mesh _ => mesh;
  captureMesh := fun mesh _ => mesh
|}.

(** The layout of the response buffer of that kernel layer. *)
Definition entry (step receiver : Z) : nat := Z.to_nat step.

Definition box (a b c : Z) : Geometry :=
  mkGeometry (nv.mkVec3f (Float32.of_Z a) (Float32.of_Z b) (Float32.of_Z c)).

Definition mesh (double : bool) : CudaMesh := mkMesh double 0 0 [].

(** An application over a box of [a] x [b] x [c] cells of size 1, with
    the given precision, step budget, device memory and forced count. *)
Definition app (a b c : Z) (double : bool) (steps : Z)
  (devices : list Z) (forced : Z) : App :=
  mkApp (box a b c) (mesh double) (mkParameters one steps 1) []
        Float32.zero 0 0 1 (Z.of_nat (length devices)) devices forced
        (Float32.of_Z 60).

(** The same application once its mesh reports [elements] elements. *)
Definition meshed (double : bool) (elements forced devices : Z) : App :=
  mkApp (box 10 10 10) (mesh double) (mkParameters one 0 1) []
        Float32.zero elements 0 1 devices [] forced (Float32.of_Z 60).

(** An application stopped at step [step] with direction [direction]. *)
Definition at_step (step direction : Z) : App :=
  mkApp (box 10 10 10) (mesh false) (mkParameters one 20 1)
        (replicate 20 Float32.zero) Float32.zero 1000 step direction 1
        [4000] (-1) (Float32.of_Z 60).

Definition always (answer : bool) : Surroundings :=
  mkSurroundings (fun _ => answer) (fun _ => 1000) 5000.

(** The interrupt flag is raised during the step of index [k]. *)
Definition raised_at (k : nat) : Surroundings :=
  mkSurroundings (fun i => bool_decide (k ≤ i)%nat) (fun _ => 1000) 5000.

(** [log10] on the values the examples below use: 0, 1 and 100. *)
Definition log10_table (f : float32) : float32 :=
  if SFeqb f Float32.zero then S754_infinity true
  else if SFeqb f (Float32.of_Z 100) then Float32.of_Z 2
  else Float32.zero.

#[global] Instance math : MathLibrary := {| log10 := log10_table |}.

(** A slice of two rows and three columns: pressures 1, -1, 0 on the
    first row and 10, -10, 1 on the second, whose last cell has the top
    bit of its position byte set. *)
Definition slice_data : list float32 :=
  [one; Float32.of_Z (-1); Float32.zero;
   Float32.of_Z 10; Float32.of_Z (-10); one].

Definition slice_positions : list Z := [0; 0; 0; 0; 134; 129].

End Demo.

(** ** Further functions of [App.cpp] *)

Definition with_devices (n : Z) (sizes : list Z) (a : App) : App :=
  mkApp (m_geometry a) (m_mesh a) (m_parameters a) (responses_ a)
        (time_per_step_ a) (num_elements_ a) (current_step_ a)
        (step_direction_ a) n sizes (force_partition_to_ a) (capture_db_ a).

(** [(int)(free_mem/1e6f)]: the free bytes of a device, converted to
    [float], divided by 10^6 and truncated. *)
Definition mem_size_MB (free_mem : Z) : Z :=
  wrap_int
    (Float32.trunc
       (Float32.div (Float32.of_Z free_mem) (Float32.of_Z 1000000))).

(** [App::queryDevices]: [count] is what [cudaGetDeviceCount] reports and
    [free_mem i] the free bytes [cudaMemGetInfo] reports for device [i].
    The sizes are pushed at the back of the vector.  The member
    [best_device_] is not part of the model. *)
Definition queryDevices (count : Z) (free_mem : nat -> Z) (app : App) : App :=
  with_devices count
    (device_mem_sizes_ app
     ++ map (fun i => mem_size_MB (free_mem i)) (seq 0 (Z.to_nat count)))
    app.

(** Modelled from the spec: [CudaMesh::resetPressures] is defined in the
    kernel layer; it zeroes the field state of the mesh. *)
Definition resetPressures (m : CudaMesh) : CudaMesh :=
  {| isDouble := isDouble m;
     getNumberOfElements := getNumberOfElements m;
     getNumberOfPartitions := getNumberOfPartitions m;
     pressures := map (fun _ => Float32.zero) (pressures m) |}.

(** [App::resetPressureMesh]. *)
Definition resetPressureMesh (app : App) : App :=
  with_current_step 0 (with_mesh (resetPressures (m_mesh app)) app).

(** The number of steps the loop of [runCapture] executes with
    [remaining] iterations left at the loop counter [i]: it stops after the
    step whose poll answers yes. *)
Fixpoint executed_steps (env : Surroundings) (remaining i : nat) : nat :=
  match remaining with
  | O => O
  | S remaining' =>
      if interrupt_at env i then 1%nat
      else S (executed_steps env remaining' (S i))
  end.

(** *** Reverberation estimates *)

(** What the estimates read from the mesh, the geometry and the materials,
    whose classes are declared in other files, and the C library's
    [logf]. *)
Class RoomData : Type := {
  getNumberOfAirElements : CudaMesh -> Z;
  getNumberOfBoundaryElements : CudaMesh -> Z;
  getNumberOfTriangles : Geometry -> Z;
  getSurfaceAreaAt : Geometry -> Z -> float32;
  getTotalSurfaceArea : Geometry -> float32;
  getSurfaceCoefAt : Z -> Z -> float32;
  getMeanAbsorption : Z -> float32;
  admitance2Reflection : float32 -> float32;
  logf : float32 -> float32
}.

(** The literal [0.1611f]: the [float] nearest to 1611/10000. *)
Definition sabine_constant : float32 :=
  Float32.div (Float32.of_Z 1611) (Float32.of_Z 10000).

(** [App::getVolume]: [dx*dx*dx*number_of_elements]. *)
Definition getVolume `{RoomData} (app : App) : float32 :=
  let number_of_elements :=
    Float32.of_Z (getNumberOfAirElements (m_mesh app)) in
  let number_of_elements :=
    Float32.add number_of_elements
                (Float32.of_Z (getNumberOfBoundaryElements (m_mesh app))) in
  let dx := getDx (m_parameters app) in
  Float32.mul (Float32.mul (Float32.mul dx dx) dx) number_of_elements.

(** The body of the loop of [App::getTotalAborptionArea] for the triangle
    [i]. *)
Definition absorption_step `{RoomData} (app : App) (octave : Z)
  (total_absorption_area : float32) (i : Z) : float32 :=
  let coef := admitance2Reflection (getSurfaceCoefAt i octave) in
  let coef := SFsub Float32.prec Float32.emax (Float32.of_Z 1)
                    (Float32.mul coef coef) in
  let surface_area := getSurfaceAreaAt (m_geometry app) i in
  Float32.add total_absorption_area (Float32.mul surface_area coef).

Definition getTotalAborptionArea `{RoomData} (app : App) (octave : Z)
  : float32 :=
  foldl (absorption_step app octave) Float32.zero
        (seqZ 0 (getNumberOfTriangles (m_geometry app))).

(** [App::getSabine]: [0.1611f*volume/total_absorption_area]. *)
Definition getSabine `{RoomData} (app : App) (octave : Z) : float32 :=
  let volume := getVolume app in
  let total_absorption_area := getTotalAborptionArea app octave in
  Float32.div (Float32.mul sabine_constant volume) total_absorption_area.

(** [App::getEyring]:
    [0.1611f*volume/(-1.f*total_surface_area*logf(1-mean_absorption))]. *)
Definition getEyring `{RoomData} (app : App) (octave : Z) : float32 :=
  let volume := getVolume app in
  let total_surface_area := getTotalSurfaceArea (m_geometry app) in
  let mean_absorption := getMeanAbsorption octave in
  Float32.div
    (Float32.mul sabine_constant volume)
    (Float32.mul
       (Float32.mul (Float32.of_Z (-1)) total_surface_area)
       (logf (SFsub Float32.prec Float32.emax (Float32.of_Z 1)
                    mean_absorption))).

(** A value that is no number a user can read as a time: an infinity or
    NaN. *)
Definition not_finite (f : float32) : Prop :=
  match f with
  | S754_infinity _ | S754_nan => True
  | _ => False
  end.

(** *** Samples for the further functions *)

Module Sample.

(** Free memory of 8 GB and 4 GB as [cudaMemGetInfo] reports it, and a
    later reading where both devices are nearly full. *)
Definition free_first (i : nat) : Z :=
  match i with O => 8000000000 | _ => 4000000000 end.

Definition free_later (i : nat) : Z := 64000000.

(** A room without any triangle or element. *)
#[global] Instance empty_room : RoomData := {|
  getNumberOfAirElements := fun _ => 0;
  getNumberOfBoundaryElements := fun _ => 0;
  getNumberOfTriangles := fun _ => 0;
  getSurfaceAreaAt := fun _ _ => Float32.zero;
  getTotalSurfaceArea := fun _ => Float32.zero;
  getSurfaceCoefAt := fun _ _ => Float32.zero;
  getMeanAbsorption := fun _ => Float32.zero;
  admitance2Reflection := fun f => f;
  logf := fun f => f
|}.

(** A kernel layer like the one of [Demo] whose voxelization has 60e6
    elements. *)
Definition sixty_million : KernelLayer := {|
  voxelized_elements := fun _ _ => 60000000;
  launchFDTD3dStep := fun mesh _ responses step _ =>
    (mesh, <[Z.to_nat step := Demo.one]> responses);
  captureSliceFast := fun mesh _ => mesh;
  captureMesh := fun mesh _ => mesh
|}.

End Sample.

(** * Properties *)

Module MachineFacts.

Lemma wrap_uint_range z : is_uint (wrap_uint z).
Proof. unfold is_uint, wrap_uint, UINT_MOD. apply Z.mod_pos_bound. lia. Qed.

Lemma wrap_uint_small z : is_uint z -> wrap_uint z = z.
Proof. unfold is_uint, wrap_uint. intros H. now apply Z.mod_small. Qed.

Lemma wrap_int_range z : is_int (wrap_int z).
Proof.
  unfold is_int, wrap_int, INT_MIN, INT_MAX, UINT_MOD.
  pose proof (Z.mod_pos_bound (z + 2 ^ 31) (2 ^ 32)). lia.
Qed.

Lemma wrap_int_small z : is_int z -> wrap_int z = z.
Proof.
  unfold is_int, wrap_int, INT_MIN, INT_MAX, UINT_MOD. intros H.
  rewrite Z.mod_small; lia.
Qed.

(** [wrap_int] and [wrap_uint] keep the residue modulo 2^32. *)
Lemma wrap_int_mod z : wrap_int z mod UINT_MOD = z mod UINT_MOD.
Proof.
  unfold wrap_int, UINT_MOD.
  rewrite Zminus_mod, Z.mod_mod by lia.
  rewrite <- Zminus_mod. f_equal. lia.
Qed.

Lemma wrap_uint_mod z : wrap_uint z mod UINT_MOD = z mod UINT_MOD.
Proof. unfold wrap_uint, UINT_MOD. apply Z.mod_mod. lia. Qed.

(** Two [int]s with the same residue are equal. *)
Lemma is_int_mod_inj a b :
  is_int a -> is_int b -> a mod UINT_MOD = b mod UINT_MOD -> a = b.
Proof.
  unfold is_int, INT_MIN, INT_MAX, UINT_MOD. intros Ha Hb H.
  pose proof (Z.div_mod a (2 ^ 32)). pose proof (Z.div_mod b (2 ^ 32)).
  assert (a / 2 ^ 32 = b / 2 ^ 32 \/ a / 2 ^ 32 < b / 2 ^ 32
          \/ b / 2 ^ 32 < a / 2 ^ 32) as [E | [E | E]] by lia.
  - lia.
  - pose proof (Z.mod_pos_bound a (2 ^ 32)).
    pose proof (Z.mod_pos_bound b (2 ^ 32)). lia.
  - pose proof (Z.mod_pos_bound a (2 ^ 32)).
    pose proof (Z.mod_pos_bound b (2 ^ 32)). lia.
Qed.

End MachineFacts.

Import MachineFacts.

(** ** Mesh initialization: the memory check *)

Section MeshInitialization.
Context `{K : KernelLayer}.

(** A passing check has called nothing. *)
Lemma memory_check_ok_events app total evs :
  memory_check app = (Ok total, evs) -> evs = [].
Proof.
  unfold memory_check. destruct (total_mem app) as [t|]; [|discriminate].
  destruct (t <? _); [discriminate|].
  destruct (_ && _); [discriminate|]. congruence.
Qed.

(** What [initializeMesh] does once the check has passed. *)
Lemma initializeMesh_accepts n app total :
  memory_check app = (Ok total, []) ->
  let elements := wrap_uint (getNumberOfElements (setupMesh app)) in
  let app1 := with_num_elements elements (with_mesh (setupMesh app) app) in
  let count := partition_count n app1 in
  initializeMesh n app =
    (Ok (with_mesh (makePartition count (m_mesh app1)) app1),
     [EvVoxelize; EvSetupMesh (isDouble (m_mesh app));
      EvMakePartition count]).
Proof. intros Hc. unfold initializeMesh. now rewrite Hc. Qed.

(** The partition decision reads the forced count and the device count,
    which the mesh setup leaves as they were. *)
Lemma forced_accepted_after_setup app elements :
  forced_accepted
    (with_num_elements elements (with_mesh (setupMesh app) app))
  = forced_accepted app.
Proof. reflexivity. Qed.

Lemma forced_accepted_true app :
  forced_accepted app = true <->
  force_partition_to_ app <> -1
  /\ force_partition_to_ app <= number_of_devices_ app.
Proof.
  unfold forced_accepted.
  rewrite andb_true_iff, negb_true_iff, Z.eqb_neq, Z.leb_le. tauto.
Qed.

Lemma forced_accepted_false app :
  forced_accepted app = false <->
  force_partition_to_ app = -1
  \/ number_of_devices_ app < force_partition_to_ app.
Proof.
  unfold forced_accepted.
  rewrite andb_false_iff, negb_false_iff, Z.eqb_eq, Z.leb_gt. tauto.
Qed.

(** The two tests of the memory check, taken together. *)
Lemma initializeMesh_rejects n app total :
  total_mem app = Some total ->
  total < footprint_MB app ->
  initializeMesh n app = (ThrowInt (-1), [EvClose]).
Proof.
  intros Ht Hlt. unfold initializeMesh, memory_check. rewrite Ht.
  unfold footprint_MB in Hlt.
  destruct (Z.ltb_spec total (mesh_size_in_MB (estimated_nodes app)))
    as [_ | Hge]; [reflexivity|].
  destruct (isDouble (m_mesh app)).
  - apply Z.ltb_lt in Hlt. now rewrite Hlt.
  - lia.
Qed.

(** The check on the computed footprint.  A mesh whose footprint, in MB
    and for the configured precision as [initializeMesh] computes it in 32
    bits, exceeds the sum of the free
    memory of the enumerated devices is rejected: [initializeMesh] leaves
    by [throw(-1)] after [close()], and neither the voxelizer nor the mesh
    setup nor the partitioning has been called. *)
Theorem insufficient_memory_rejected (n : Z) (app : App) (total : Z) :
  total_mem app = Some total ->
  total < footprint_MB app ->
  initializeMesh n app = (ThrowInt (-1), [EvClose])
  /\ Forall (fun e => allocates e = false) (snd (initializeMesh n app)).
Proof.
  intros Ht Hlt.
  pose proof (initializeMesh_rejects n app total Ht Hlt) as E.
  split; [exact E|]. rewrite E. repeat constructor.
Qed.

(** C2. A forced partition count between 1 and the device count is the
    count the mesh is partitioned with, whatever the element count and
    the count the caller asks for. *)
Theorem forced_partition_honored (n : Z) (app : App) (total : Z) :
  1 <= force_partition_to_ app <= number_of_devices_ app ->
  memory_check app = (Ok total, []) ->
  (forall n' elements,
      partition_count n' (with_num_elements elements app)
      = force_partition_to_ app)
  /\ exists app',
      initializeMesh n app =
        (Ok app', [EvVoxelize; EvSetupMesh (isDouble (m_mesh app));
                   EvMakePartition (force_partition_to_ app)])
      /\ getNumberOfPartitions (m_mesh app') = force_partition_to_ app.
Proof.
  intros Hf Hc.
  assert (forced_accepted app = true) as Ha
      by (apply forced_accepted_true; lia).
  split.
  - intros n' elements. unfold partition_count.
    change (forced_accepted (with_num_elements elements app))
      with (forced_accepted app).
    now rewrite Ha.
  - eexists. rewrite (initializeMesh_accepts n app total Hc). cbv zeta.
    unfold partition_count. rewrite forced_accepted_after_setup, Ha.
    split; reflexivity.
Qed.

(** C3, as amended. When the forced count is -1 or exceeds the device
    count, the mesh gets 1 partition if its element count is below the
    limit of its precision, 90e6 for single and 45e6 for double, and the
    count the caller asks for otherwise; a forced count that passes the
    test is used before the element count is looked at. *)
Theorem partition_heuristic (n : Z) (app : App) :
  (force_partition_to_ app = -1
   \/ number_of_devices_ app < force_partition_to_ app ->
   partition_count n app =
     if num_elements_ app
        <? (if isDouble (m_mesh app) then 45000000 else 90000000)
     then 1 else n)
  /\ (force_partition_to_ app <> -1
      /\ force_partition_to_ app <= number_of_devices_ app ->
      partition_count n app = force_partition_to_ app).
Proof.
  split; intros H; unfold partition_count.
  - apply forced_accepted_false in H. rewrite H.
    now destruct (isDouble (m_mesh app)).
  - apply forced_accepted_true in H. now rewrite H.
Qed.

(** The decision alone.  The element limit is 90e6 for a single-precision mesh and 45e6
    for a double-precision one; with an element count in between and no
    forced count passing the test, a single-precision mesh gets 1
    partition and a double-precision mesh the count the caller asks
    for. *)
Theorem element_limit_by_precision (n : Z) (app : App) :
  45000000 <= num_elements_ app < 90000000 ->
  force_partition_to_ app = -1
  \/ number_of_devices_ app < force_partition_to_ app ->
  element_limit false = 90000000
  /\ element_limit true = 45000000
  /\ partition_count n app = if isDouble (m_mesh app) then n else 1.
Proof.
  intros He Hf. split; [reflexivity|]. split; [reflexivity|].
  unfold partition_count. apply forced_accepted_false in Hf. rewrite Hf.
  destruct (isDouble (m_mesh app)).
  - change (element_limit true) with 45000000.
    destruct (Z.ltb_spec (num_elements_ app) 45000000); [lia|reflexivity].
  - change (element_limit false) with 90000000.
    destruct (Z.ltb_spec (num_elements_ app) 90000000); [reflexivity|lia].
Qed.

(** C10. A forced count other than -1 that does not exceed the device
    count passes the test and is handed to [makePartition] as it is; zero
    and the negative values below -1 are such counts. *)
Theorem forced_lower_bound_unchecked (n : Z) (app : App) (total : Z) :
  force_partition_to_ app <> -1 ->
  force_partition_to_ app <= number_of_devices_ app ->
  memory_check app = (Ok total, []) ->
  forced_accepted app = true
  /\ partition_count n app = force_partition_to_ app
  /\ exists app',
      initializeMesh n app =
        (Ok app', [EvVoxelize; EvSetupMesh (isDouble (m_mesh app));
                   EvMakePartition (force_partition_to_ app)])
      /\ getNumberOfPartitions (m_mesh app') = force_partition_to_ app.
Proof.
  intros Hne Hle Hc.
  assert (forced_accepted app = true) as Ha
      by (apply forced_accepted_true; lia).
  split; [exact Ha|]. split.
  - unfold partition_count. now rewrite Ha.
  - eexists. rewrite (initializeMesh_accepts n app total Hc). cbv zeta.
    unfold partition_count. rewrite forced_accepted_after_setup, Ha.
    split; reflexivity.
Qed.

End MeshInitialization.

(** A box of 10^6 cells, 8 MB in single precision, and one device
    with 5 MB free. *)
Lemma insufficient_memory_rejected_witness :
  initializeMesh 2 (Demo.app 100 100 100 false 4 [5] (-1))
  = (ThrowInt (-1), [EvClose])
  /\ Forall (fun e => allocates e = false)
            (snd (initializeMesh 2 (Demo.app 100 100 100 false 4 [5] (-1)))).
Proof.
  apply (insufficient_memory_rejected 2
           (Demo.app 100 100 100 false 4 [5] (-1)) 5).
  - reflexivity.
  - reflexivity.
Defined.

(** C2 with 3 partitions forced on 4 devices, where the caller asks for 2. *)
Lemma forced_partition_honored_witness :
  (forall n' elements,
      partition_count n'
        (with_num_elements elements
           (Demo.app 100 100 100 false 4 [512; 512; 512; 512] 3)) = 3)
  /\ exists app',
      initializeMesh 2 (Demo.app 100 100 100 false 4 [512; 512; 512; 512] 3)
      = (Ok app', [EvVoxelize; EvSetupMesh false; EvMakePartition 3])
      /\ getNumberOfPartitions (m_mesh app') = 3.
Proof.
  apply (forced_partition_honored 2
           (Demo.app 100 100 100 false 4 [512; 512; 512; 512] 3) 2048).
  - simpl. lia.
  - reflexivity.
Defined.

(** C3 as stated fails: no single element threshold accounts for the
    decisions.  With no forced count and 60e6 elements a single-precision
    mesh gets 1 partition and a double-precision mesh the requested 2. *)
Lemma no_fixed_element_threshold :
  ~ exists threshold : Z, forall (n : Z) (app : App),
      ~ (1 <= force_partition_to_ app <= number_of_devices_ app) ->
      partition_count n app
      = if num_elements_ app <? threshold then 1 else n.
Proof.
  intros [threshold H].
  pose proof (H 2 (Demo.meshed false 60000000 (-1) 2)) as Hs.
  pose proof (H 2 (Demo.meshed true 60000000 (-1) 2)) as Hd.
  simpl in Hs, Hd.
  assert (~ 1 <= -1 <= 2) as Hn by lia.
  specialize (Hs Hn). specialize (Hd Hn).
  change (partition_count 2 (Demo.meshed false 60000000 (-1) 2))
    with 1 in Hs.
  change (partition_count 2 (Demo.meshed true 60000000 (-1) 2))
    with 2 in Hd.
  destruct (60000000 <? threshold); discriminate.
Qed.

(** C3, amended, on a double-precision mesh of 60e6 elements: the
    requested count without a forced one, the forced one otherwise. *)
Lemma partition_heuristic_witness :
  partition_count 2 (Demo.meshed true 60000000 (-1) 2) = 2
  /\ partition_count 2 (Demo.meshed true 60000000 1 2) = 1.
Proof.
  split.
  - apply (proj1 (partition_heuristic 2 (Demo.meshed true 60000000 (-1) 2))).
    left. reflexivity.
  - apply (proj2 (partition_heuristic 2 (Demo.meshed true 60000000 1 2))).
    simpl. lia.
Defined.

(** The decision on a single-precision mesh of 60e6 elements. *)
Lemma element_limit_by_precision_witness :
  element_limit false = 90000000
  /\ element_limit true = 45000000
  /\ partition_count 2 (Demo.meshed false 60000000 (-1) 2) = 1.
Proof.
  apply (element_limit_by_precision 2 (Demo.meshed false 60000000 (-1) 2)).
  - simpl. lia.
  - left. reflexivity.
Defined.

(** C10 with a forced count of 0 on one device. *)
Lemma forced_lower_bound_unchecked_witness :
  forced_accepted (Demo.app 100 100 100 false 4 [512] 0) = true
  /\ partition_count 2 (Demo.app 100 100 100 false 4 [512] 0) = 0
  /\ exists app',
      initializeMesh 2 (Demo.app 100 100 100 false 4 [512] 0)
      = (Ok app', [EvVoxelize; EvSetupMesh false; EvMakePartition 0])
      /\ getNumberOfPartitions (m_mesh app') = 0.
Proof.
  apply (forced_lower_bound_unchecked 2
           (Demo.app 100 100 100 false 4 [512] 0) 512).
  - simpl. lia.
  - simpl. lia.
  - reflexivity.
Defined.

(** A forced count of -2 reaches [makePartition] in the same way. *)
Example forced_minus_two :
  fst (initializeMesh 2 (Demo.app 100 100 100 false 4 [512] (-2)))
  = Ok (with_mesh (makePartition (-2) (mkMesh false 1000 0 []))
          (with_num_elements 1000
             (Demo.app 100 100 100 false 4 [512] (-2)))).
Proof. reflexivity. Qed.

(** ** The footprint in 32-bit arithmetic *)

Lemma mesh_size_in_MB_unfold nodes :
  mesh_size_in_MB nodes = (nodes * 8) mod 2 ^ 32 / 1000000.
Proof.
  unfold mesh_size_in_MB, wrap_uint, UINT_MOD. apply wrap_int_small.
  unfold is_int, INT_MIN, INT_MAX.
  pose proof (Z.mod_pos_bound (nodes * 8) (2 ^ 32)).
  Z.div_mod_to_equations. lia.
Qed.

Lemma mesh_size_in_MB_double_unfold nodes :
  mesh_size_in_MB_double nodes = (nodes * 18) mod 2 ^ 32 / 1000000.
Proof.
  unfold mesh_size_in_MB_double, wrap_uint, UINT_MOD. apply wrap_int_small.
  unfold is_int, INT_MIN, INT_MAX.
  pose proof (Z.mod_pos_bound (nodes * 18) (2 ^ 32)).
  Z.div_mod_to_equations. lia.
Qed.

(** Once the product has wrapped, the quotient is below the exact one. *)
Lemma wrapped_quotient_smaller (p : Z) :
  2 ^ 32 <= p -> p mod 2 ^ 32 / 1000000 < p / 1000000.
Proof.
  intros Hp.
  assert (p mod 2 ^ 32 <= p - 2 ^ 32) as Hm.
  { pose proof (Z.div_mod p (2 ^ 32)).
    pose proof (Z.mod_pos_bound p (2 ^ 32)).
    assert (1 <= p / 2 ^ 32) by (apply Z.div_le_lower_bound; lia). nia. }
  apply Z.le_lt_trans with ((p - 2 ^ 32) / 1000000).
  - apply Z.div_le_mono; lia.
  - Z.div_mod_to_equations. lia.
Qed.

(** Below the node counts at which the products wrap, the rejection also
    holds for the exact footprint in whole MB. *)
Lemma insufficient_memory_rejected_exact `{K : KernelLayer} n app total :
  is_uint (estimated_nodes app) ->
  estimated_nodes app < 238609295 ->
  total_mem app = Some total ->
  total < (if isDouble (m_mesh app)
           then exact_size_in_MB_double (estimated_nodes app)
           else exact_size_in_MB (estimated_nodes app)) ->
  initializeMesh n app = (ThrowInt (-1), [EvClose]).
Proof.
  intros [Hlo _] Hhi Ht Hlt. apply (initializeMesh_rejects n app total Ht).
  unfold footprint_MB.
  rewrite mesh_size_in_MB_unfold, mesh_size_in_MB_double_unfold.
  unfold exact_size_in_MB, exact_size_in_MB_double in Hlt.
  rewrite !Z.mod_small by lia. exact Hlt.
Qed.

(** C8. The footprints are the quotients by 10^6 of the products
    [nodes * 8] and [nodes * 18] reduced modulo 2^32.  From 536870912 nodes
    on for single precision and 238609295 for double, the computed
    footprint is below the exact one (and equal to it below these counts),
    and the memory check passes on a mesh whose exact footprint exceeds the
    sum of the device memory. *)
Theorem footprint_wraps (nodes : Z) :
  is_uint nodes ->
  mesh_size_in_MB nodes = (nodes * 8) mod 2 ^ 32 / 1000000
  /\ mesh_size_in_MB_double nodes = (nodes * 18) mod 2 ^ 32 / 1000000
  /\ (536870912 <= nodes -> mesh_size_in_MB nodes < exact_size_in_MB nodes)
  /\ (238609295 <= nodes ->
      mesh_size_in_MB_double nodes < exact_size_in_MB_double nodes)
  /\ (nodes < 536870912 -> mesh_size_in_MB nodes = exact_size_in_MB nodes)
  /\ (nodes < 238609295 ->
      mesh_size_in_MB_double nodes = exact_size_in_MB_double nodes)
  /\ exists app total,
      memory_check app = (Ok total, [])
      /\ total_mem app = Some total
      /\ total < exact_size_in_MB (estimated_nodes app).
Proof.
  intros [Hlo Hhi]. unfold UINT_MOD in Hhi.
  rewrite mesh_size_in_MB_unfold, mesh_size_in_MB_double_unfold.
  unfold exact_size_in_MB, exact_size_in_MB_double.
  repeat split.
  - intros H. apply wrapped_quotient_smaller. lia.
  - intros H. apply wrapped_quotient_smaller. lia.
  - intros H. rewrite Z.mod_small by lia. reflexivity.
  - intros H. rewrite Z.mod_small by lia. reflexivity.
  - exists (Demo.app 512 1024 1024 false 4 [100] (-1)), 100.
    repeat split.
Qed.

(** C8 at the first node count whose single-precision product wraps: the
    computed footprint is 0 MB, the exact one 4294 MB. *)
Lemma footprint_wraps_witness :
  mesh_size_in_MB 536870912 = 0
  /\ mesh_size_in_MB 536870912 < exact_size_in_MB 536870912
  /\ mesh_size_in_MB_double 536870912
     < exact_size_in_MB_double 536870912.
Proof.
  assert (is_uint 536870912) as Hu by (unfold is_uint, UINT_MOD; lia).
  destruct (footprint_wraps 536870912 Hu) as (_ & _ & Hs & Hd & _).
  split; [reflexivity|]. split; [apply Hs | apply Hd]; lia.
Defined.

(** ** Stepping: direction and step counter *)

Lemma wrap_int_shift (z : Z) : exists k, wrap_int z = z + k * UINT_MOD.
Proof.
  exists (- ((z + 2 ^ 31) / UINT_MOD)). unfold wrap_int.
  rewrite Z.mod_eq by (unfold UINT_MOD; lia). lia.
Qed.

(** Negating twice in [int] gives the value back, also at [INT_MIN]. *)
Lemma wrap_int_negate_twice (d : Z) :
  is_int d -> wrap_int (wrap_int (d * -1) * -1) = d.
Proof.
  intros Hd. apply is_int_mod_inj; [apply wrap_int_range | exact Hd |].
  rewrite wrap_int_mod.
  destruct (wrap_int_shift (d * -1)) as [k ->].
  replace ((d * -1 + k * UINT_MOD) * -1) with (d + (- k) * UINT_MOD) by lia.
  apply Z.mod_add. unfold UINT_MOD. lia.
Qed.

Section Stepping.
Context `{K : KernelLayer}.

Lemma executeStep_current_step end_t app :
  current_step_ (executeStep end_t app)
  = wrap_uint (current_step_ app + step_direction_ app).
Proof. unfold executeStep. now destruct (launchFDTD3dStep _ _ _ _ _). Qed.

Lemma executeStep_step_direction end_t app :
  step_direction_ (executeStep end_t app) = step_direction_ app.
Proof. unfold executeStep. now destruct (launchFDTD3dStep _ _ _ _ _). Qed.

Lemma executeStep_parameters end_t app :
  m_parameters (executeStep end_t app) = m_parameters app.
Proof. unfold executeStep. now destruct (launchFDTD3dStep _ _ _ _ _). Qed.

Lemma executeStep_time_per_step end_t app :
  time_per_step_ (executeStep end_t app)
  = Float32.div (Float32.add (time_per_step_ app) (seconds end_t))
                (Float32.of_Z 2).
Proof. unfold executeStep. now destruct (launchFDTD3dStep _ _ _ _ _). Qed.

Lemma executeSteps_cons t ticks app :
  executeSteps (t :: ticks) app = executeSteps ticks (executeStep t app).
Proof. reflexivity. Qed.

Lemma executeSteps_app ticks1 ticks2 app :
  executeSteps (ticks1 ++ ticks2) app
  = executeSteps ticks2 (executeSteps ticks1 app).
Proof. unfold executeSteps. apply foldl_app. Qed.

Lemma executeSteps_step_direction ticks app :
  step_direction_ (executeSteps ticks app) = step_direction_ app.
Proof.
  revert app. induction ticks as [|t ticks IH]; intros app; [reflexivity|].
  rewrite executeSteps_cons, IH. apply executeStep_step_direction.
Qed.

Lemma executeSteps_parameters ticks app :
  m_parameters (executeSteps ticks app) = m_parameters app.
Proof.
  revert app. induction ticks as [|t ticks IH]; intros app; [reflexivity|].
  rewrite executeSteps_cons, IH. apply executeStep_parameters.
Qed.

(** After [n] steps the counter has moved by [n] times the direction,
    modulo 2^32. *)
Lemma executeSteps_current_step ticks app :
  is_uint (current_step_ app) ->
  current_step_ (executeSteps ticks app)
  = wrap_uint (current_step_ app
               + Z.of_nat (length ticks) * step_direction_ app).
Proof.
  revert app. induction ticks as [|t ticks IH]; intros app Hu.
  - simpl. rewrite Z.add_0_r. symmetry. now apply wrap_uint_small.
  - rewrite executeSteps_cons, IH
      by (rewrite executeStep_current_step; apply wrap_uint_range).
    rewrite executeStep_current_step, executeStep_step_direction.
    unfold wrap_uint. rewrite Zplus_mod_idemp_l. f_equal.
    rewrite length_cons. lia.
Qed.

(** C5. Inverting the direction twice gives the state back, and an
    inversion leaves the step counter alone; inverting, executing [n]
    steps, inverting again and executing [n] steps brings the step
    counter and the direction back to where they were. *)
Theorem invert_twice_and_replay (app : App) (ticks1 ticks2 : list Z) :
  well_typed app ->
  length ticks1 = length ticks2 ->
  invertTime (invertTime app) = app
  /\ current_step_ (invertTime app) = current_step_ app
  /\ let back := executeSteps ticks1 (invertTime app) in
     let forth := executeSteps ticks2 (invertTime back) in
     current_step_ forth = current_step_ app
     /\ step_direction_ forth = step_direction_ app.
Proof.
  intros [_ Hc Hd _ _] Hlen.
  assert (invertTime (invertTime app) = app) as Hinv.
  { destruct app. unfold invertTime, with_step_direction. simpl in *.
    f_equal. now apply wrap_int_negate_twice. }
  split; [exact Hinv|]. split; [reflexivity|]. cbv zeta. split.
  - rewrite executeSteps_current_step.
    2:{ change (current_step_ (invertTime ?a)) with (current_step_ a).
        rewrite executeSteps_current_step by exact Hc.
        apply wrap_uint_range. }
    change (current_step_ (invertTime ?a)) with (current_step_ a).
    rewrite executeSteps_current_step by exact Hc.
    change (step_direction_ (invertTime ?a))
      with (wrap_int (step_direction_ a * -1)).
    rewrite executeSteps_step_direction.
    change (step_direction_ (invertTime app))
      with (wrap_int (step_direction_ app * -1)).
    rewrite wrap_int_negate_twice by exact Hd.
    destruct (wrap_int_shift (step_direction_ app * -1)) as [k ->].
    rewrite <- Hlen. unfold wrap_uint.
    rewrite Zplus_mod_idemp_l.
    change (current_step_ (invertTime app)) with (current_step_ app).
    replace (current_step_ app
             + Z.of_nat (length ticks1)
               * (step_direction_ app * -1 + k * UINT_MOD)
             + Z.of_nat (length ticks1) * step_direction_ app)
      with (current_step_ app
            + (Z.of_nat (length ticks1) * k) * UINT_MOD) by lia.
    rewrite Z.mod_add by (unfold UINT_MOD; lia).
    now apply Z.mod_small.
  - rewrite executeSteps_step_direction.
    change (step_direction_ (invertTime ?a))
      with (wrap_int (step_direction_ a * -1)).
    rewrite executeSteps_step_direction.
    change (step_direction_ (invertTime app))
      with (wrap_int (step_direction_ app * -1)).
    now apply wrap_int_negate_twice.
Qed.

(** C6. A step replaces the timing estimate by the half of the sum of
    the previous estimate and the time measured for this step, in
    [float]; over two steps the first measurement thus weighs a quarter
    and the second a half, whereas a running mean would weigh them
    alike. *)
Theorem smoothed_time_per_step (end_t end_t' : Z) (app : App) :
  time_per_step_ (executeStep end_t app)
  = Float32.div (Float32.add (time_per_step_ app) (seconds end_t))
                (Float32.of_Z 2)
  /\ time_per_step_ (executeStep end_t' (executeStep end_t app))
     = Float32.div
         (Float32.add
            (Float32.div (Float32.add (time_per_step_ app) (seconds end_t))
                         (Float32.of_Z 2))
            (seconds end_t'))
         (Float32.of_Z 2).
Proof.
  split.
  - apply executeStep_time_per_step.
  - now rewrite !executeStep_time_per_step.
Qed.

End Stepping.

(** C5 on the replay of 5 steps from step 10 with direction +1. *)
Lemma invert_twice_and_replay_witness :
  let ticks := [1000; 1000; 1000; 1000; 1000] in
  let back := executeSteps ticks (invertTime (Demo.at_step 10 1)) in
  let forth := executeSteps ticks (invertTime back) in
  invertTime (invertTime (Demo.at_step 10 1)) = Demo.at_step 10 1
  /\ current_step_ (invertTime (Demo.at_step 10 1)) = 10
  /\ current_step_ back = 5
  /\ current_step_ forth = 10
  /\ step_direction_ forth = 1.
Proof.
  pose proof (invert_twice_and_replay (Demo.at_step 10 1)
                [1000; 1000; 1000; 1000; 1000]
                [1000; 1000; 1000; 1000; 1000]) as H.
  assert (well_typed (Demo.at_step 10 1)) as Hw
      by (constructor; unfold is_uint, is_int, INT_MIN, INT_MAX, UINT_MOD;
          simpl; lia).
  destruct (H Hw eq_refl) as (H1 & H2 & H3 & H4).
  cbv zeta. split; [exact H1|]. split; [exact H2|].
  split; [reflexivity|]. split; [exact H3 | exact H4].
Defined.

(** From an estimate of 0 s, steps measured at 1 s and 3 s leave an
    estimate of 1.75 s; the mean of the two measurements is 2 s. *)
Example smoothing_is_not_the_mean :
  time_per_step_
    (executeStep 3000000 (executeStep 1000000 (Demo.at_step 0 1)))
  = Float32.div (Float32.of_Z 7) (Float32.of_Z 4).
Proof. reflexivity. Qed.

(** ** An interrupted capture run *)

Section InterruptedRun.
Context `{K : KernelLayer}.
Variable entry : Z -> Z -> nat.
Variable params : SimulationParameters.
Hypothesis contract : StepKernelContract entry params.

Lemma executeStep_responses end_t app :
  responses_ (executeStep end_t app)
  = (launchFDTD3dStep (m_mesh app) (m_parameters app) (responses_ app)
                      (current_step_ app) (step_direction_ app)).2.
Proof. unfold executeStep. now destruct (launchFDTD3dStep _ _ _ _ _). Qed.

(** Steps counted upwards from [current_step_] leave alone every place
    of the buffer that is no entry of a step they execute. *)
Lemma executeSteps_frame ticks : forall app (i : nat),
  m_parameters app = params ->
  step_direction_ app = 1 ->
  0 <= current_step_ app ->
  current_step_ app + Z.of_nat (length ticks) < UINT_MOD ->
  (forall step receiver,
      current_step_ app <= step
      < current_step_ app + Z.of_nat (length ticks) ->
      0 <= receiver < getNumReceivers params ->
      i <> entry step receiver) ->
  responses_ (executeSteps ticks app) !! i = responses_ app !! i.
Proof.
  induction ticks as [|t ticks IH]; intros app i Hp Hd Hc Hb Hi;
    [reflexivity|].
  rewrite length_cons in Hb, Hi.
  assert (current_step_ (executeStep t app) = current_step_ app + 1) as Hn.
  { rewrite executeStep_current_step, Hd. apply wrap_uint_small.
    unfold is_uint. lia. }
  rewrite executeSteps_cons, IH.
  - rewrite executeStep_responses, Hp.
    apply (kernel_frame _ _ contract). intros r Hr. apply Hi; lia.
  - now rewrite executeStep_parameters.
  - now rewrite executeStep_step_direction.
  - lia.
  - lia.
  - intros s r Hs Hr. apply Hi; lia.
Qed.

(** The loop, when the callback first answers yes at the poll that
    follows the [n]-th further step. *)
Lemma capture_loop_interrupted env (n : nat) : forall remaining i app,
  (n < remaining)%nat ->
  (forall j, (j < n)%nat -> interrupt_at env (i + j)%nat = false) ->
  interrupt_at env (i + n)%nat = true ->
  step_direction_ app = 1 ->
  0 <= current_step_ app ->
  current_step_ app + Z.of_nat n + 1 <= UINT_MOD ->
  capture_loop env remaining i app
  = (executeSteps (map (step_ticks env) (seq i (S n))) app,
     interrupted_steps (current_step_ app) n).
Proof.
  induction n as [|n IH]; intros remaining i app Hr Hno Hyes Hd Hc Hb;
    (destruct remaining as [|remaining]; [lia|]); simpl capture_loop.
  - rewrite Nat.add_0_r in Hyes. rewrite Hyes.
    unfold interrupted_steps. simpl. now rewrite Z.add_0_r.
  - pose proof (Hno 0%nat ltac:(lia)) as H0. rewrite Nat.add_0_r in H0.
    rewrite H0.
    assert (current_step_ (executeStep (step_ticks env i) app)
            = current_step_ app + 1) as Hn.
    { rewrite executeStep_current_step, Hd. apply wrap_uint_small.
      unfold is_uint. lia. }
    rewrite (IH remaining (S i) (executeStep (step_ticks env i) app)).
    + rewrite Hn. unfold interrupted_steps. simpl polled_steps.
      replace (current_step_ app + Z.of_nat (S n))
        with (current_step_ app + 1 + Z.of_nat n) by lia.
      reflexivity.
    + lia.
    + intros j Hj. replace (S i + j)%nat with (i + S j)%nat by lia.
      apply Hno. lia.
    + replace (S i + n)%nat with (i + S n)%nat by lia. exact Hyes.
    + now rewrite executeStep_step_direction.
    + lia.
    + lia.
Qed.

(** C4, as amended. In a run that starts at step 0 with direction +1,
    if the interrupt callback first answers yes at the poll that follows
    the step of index [k], [k < numSteps], [runCapture] returns without
    an exception after exactly [k + 1] steps, each followed by one poll:
    every entry of the response buffer for a step above [k] still holds
    the zero it was initialized with, and every entry for a step up to
    [k] holds what it held when its step was completed. *)
Theorem interrupted_capture (env : Surroundings) (app : App)
  (total : Z) (k : nat) :
  let app0 := with_mesh (setDouble false (m_mesh app)) app in
  m_parameters app = params ->
  memory_check app0 = (Ok total, []) ->
  current_step_ app = 0 ->
  step_direction_ app = 1 ->
  is_uint (getNumSteps params) ->
  0 <= getNumReceivers params ->
  getNumSteps params * getNumReceivers params < UINT_MOD ->
  Z.of_nat k < getNumSteps params ->
  (forall j, (j < k)%nat -> interrupt_at env j = false) ->
  interrupt_at env k = true ->
  exists ready final init,
    initializeMesh 2 app0 = (Ok ready, init)
    /\ runCapture env app
       = (Ok final, init ++ interrupted_steps 0 k)
    /\ final
       = with_time_per_step
           (Float32.div (seconds (run_ticks env))
                        (Float32.of_Z (getNumSteps params)))
           (executeSteps (map (step_ticks env) (seq 0 (S k)))
                         (zero_responses ready))
    /\ current_step_ final = Z.of_nat k + 1
    /\ (forall step receiver,
           Z.of_nat k < step < getNumSteps params ->
           0 <= receiver < getNumReceivers params ->
           responses_ final !! entry step receiver = Some Float32.zero)
    /\ (forall step receiver,
           0 <= step <= Z.of_nat k ->
           0 <= receiver < getNumReceivers params ->
           responses_ final !! entry step receiver
           = responses_
               (executeSteps
                  (map (step_ticks env) (seq 0 (S (Z.to_nat step))))
                  (zero_responses ready))
             !! entry step receiver).
Proof.
  intros app0 Hp Hm Hc Hd Hn Hr Hsize Hk Hno Hyes.
  pose proof (initializeMesh_accepts 2 app0 total Hm) as Hinit.
  cbv zeta in Hinit.
  set (ready := with_mesh _ _) in Hinit.
  assert (m_parameters ready = params) as Hrp by exact Hp.
  assert (current_step_ (zero_responses ready) = 0) as Hrc by exact Hc.
  assert (step_direction_ (zero_responses ready) = 1) as Hrd by exact Hd.
  assert (wrap_uint (getNumSteps params) = getNumSteps params) as Hw
      by now apply wrap_uint_small.
  pose proof (capture_loop_interrupted env k
                (Z.to_nat (getNumSteps params)) 0%nat
                (zero_responses ready)) as Hloop.
  rewrite Hrc in Hloop.
  specialize (Hloop ltac:(lia) Hno Hyes Hrd ltac:(lia)
                    ltac:(unfold is_uint in Hn; lia)).
  set (final := with_time_per_step
                  (Float32.div (seconds (run_ticks env))
                               (Float32.of_Z (getNumSteps params)))
                  (executeSteps (map (step_ticks env) (seq 0 (S k)))
                                (zero_responses ready))).
  eexists ready, final, _.
  split; [exact Hinit|]. split.
  { unfold runCapture. fold app0. rewrite Hinit.
    change (m_parameters (zero_responses ready)) with (m_parameters ready).
    rewrite Hrp, Hw, Hloop. reflexivity. }
  split; [reflexivity|].
  assert (forall n, length (map (step_ticks env) (seq 0 n)) = n) as Hlen
      by (intros n; now rewrite length_map, length_seq).
  split.
  { change (current_step_ final)
      with (current_step_
              (executeSteps (map (step_ticks env) (seq 0 (S k)))
                            (zero_responses ready))).
    rewrite executeSteps_current_step
      by (rewrite Hrc; unfold is_uint, UINT_MOD; lia).
    rewrite Hrc, Hrd, Hlen. rewrite wrap_uint_small; [lia|].
    unfold is_uint in *. lia. }
  assert (responses_ (zero_responses ready)
          = replicate
              (Z.to_nat (getNumSteps params * getNumReceivers params))
              Float32.zero) as Hzero.
  { unfold zero_responses. simpl. rewrite ?Hrp, ?Hp.
    rewrite wrap_uint_small; [reflexivity|].
    unfold is_uint in *. nia. }
  split.
  - intros s r Hs Hrr.
    change (responses_ final)
      with (responses_
              (executeSteps (map (step_ticks env) (seq 0 (S k)))
                            (zero_responses ready))).
    rewrite executeSteps_frame.
    + rewrite Hzero. apply lookup_replicate_2.
      apply (entry_in_buffer _ _ contract); lia.
    + exact Hrp.
    + exact Hrd.
    + lia.
    + rewrite Hrc, Hlen. unfold is_uint in Hn. lia.
    + rewrite Hrc, Hlen. intros s' r' Hs' Hr' E.
      assert (s = s')
        by (apply (entry_of_one_step _ _ contract s s' r r'); lia).
      lia.
  - intros s r Hs Hrr.
    change (responses_ final)
      with (responses_
              (executeSteps (map (step_ticks env) (seq 0 (S k)))
                            (zero_responses ready))).
    replace (S k) with (S (Z.to_nat s) + (k - Z.to_nat s))%nat by lia.
    rewrite seq_app, map_app, executeSteps_app.
    set (done := executeSteps
                   (map (step_ticks env) (seq 0 (S (Z.to_nat s))))
                   (zero_responses ready)).
    assert (current_step_ done = s + 1) as Hdc.
    { unfold done. rewrite executeSteps_current_step
        by (rewrite Hrc; unfold is_uint, UINT_MOD; lia).
      rewrite Hrc, Hrd, Hlen. rewrite wrap_uint_small; [lia|].
      unfold is_uint in *. lia. }
    apply executeSteps_frame.
    + unfold done. now rewrite executeSteps_parameters.
    + unfold done. now rewrite executeSteps_step_direction.
    + lia.
    + rewrite Hdc, length_map, length_seq. unfold is_uint in Hn. lia.
    + rewrite Hdc, length_map, length_seq. intros s' r' Hs' Hr' E.
      assert (s = s')
        by (apply (entry_of_one_step _ _ contract s s' r r'); lia).
      lia.
Qed.

End InterruptedRun.

(** The single-receiver kernel layer of [Demo] meets the contract. *)
Lemma demo_contract (steps : Z) :
  StepKernelContract Demo.entry (mkParameters Demo.one steps 1).
Proof.
  constructor; simpl.
  - intros mesh responses step direction i Hi.
    apply list_lookup_insert_ne. intros E.
    apply (Hi 0); [lia|]. unfold Demo.entry. now rewrite E.
  - intros step receiver Hs Hr. unfold Demo.entry. lia.
  - intros step step' receiver receiver' Hs Hs' _ _. unfold Demo.entry. lia.
Qed.

(** C4, amended, on a run of 3 steps interrupted at the poll after the step
    of index 1: two steps are executed and the entry of step 2 is zero. *)
Lemma interrupted_capture_witness :
  exists final,
    runCapture (Demo.raised_at 1) (Demo.app 10 10 10 false 3 [4000] (-1))
    = (Ok final,
       [EvVoxelize; EvSetupMesh false; EvMakePartition 1;
        EvExecuteStep 0; EvInterrupt false;
        EvExecuteStep 1; EvInterrupt true])
    /\ current_step_ final = 2
    /\ responses_ final !! Demo.entry 2 0 = Some Float32.zero.
Proof.
  destruct (interrupted_capture Demo.entry (mkParameters Demo.one 3 1)
              (demo_contract 3) (Demo.raised_at 1)
              (Demo.app 10 10 10 false 3 [4000] (-1)) 4000 1%nat)
    as (ready & final & init & Hinit & Hrun & _ & Hstep & Hzero & _).
  - reflexivity.
  - reflexivity.
  - reflexivity.
  - reflexivity.
  - unfold is_uint, UINT_MOD. simpl. lia.
  - simpl. lia.
  - unfold UINT_MOD. simpl. lia.
  - simpl. lia.
  - intros j Hj. simpl. apply bool_decide_eq_false. lia.
  - reflexivity.
  - exists final. split.
    + rewrite Hrun. f_equal. vm_compute in Hinit.
      injection Hinit as _ <-. reflexivity.
    + split; [exact Hstep|]. apply Hzero; simpl; lia.
Defined.

(** C4 as stated fails twice.  When the interrupt is raised during the
    step of index 0 of a two-step run, that step still completes and its
    entry holds the sample the kernel produced, not zero.  And a run of one
    step that is interrupted ends in the same application state as one that
    is not: nothing records that a run was interrupted. *)
Lemma interrupt_leaves_no_mark :
  (exists final evs,
      runCapture (Demo.raised_at 0) (Demo.app 10 10 10 false 2 [4000] (-1))
      = (Ok final, evs)
      /\ responses_ final !! Demo.entry 0 0 = Some Demo.one
      /\ Demo.one <> Float32.zero)
  /\ fst (runCapture (Demo.always true)
            (Demo.app 10 10 10 false 1 [4000] (-1)))
     = fst (runCapture (Demo.always false)
              (Demo.app 10 10 10 false 1 [4000] (-1))).
Proof.
  split.
  - eexists _, _. split; [vm_compute; reflexivity|].
    split; [reflexivity | discriminate].
  - reflexivity.
Qed.

(** ** The captured bitmap *)

(** On a byte, the test of line 508 holds from 128 on, except at 134. *)
Lemma is_boundary_byte (c_pos : Z) :
  0 <= c_pos < 256 ->
  is_boundary c_pos = true <-> 128 <= c_pos /\ c_pos <> 134.
Proof.
  intros Hb. unfold is_boundary.
  rewrite andb_true_iff, negb_true_iff, Z.eqb_eq, Z.eqb_neq.
  rewrite Z.shiftr_div_pow2 by lia.
  change 127 with (Z.ones 7). rewrite Z.land_ones by lia.
  change (2 ^ 7) with 128. Z.div_mod_to_equations. lia.
Qed.

Section Bitmap.
Context `{L : MathLibrary}.
Variable dB : float32.
Variable data : list float32.
Variable position_data : list Z.
Variable dim_x : Z.

Lemma render_pixel_here i j img :
  getPixel (render_pixel dB data position_data dim_x i j img) i j
  = Some (pixel_colour dB data position_data dim_x i j).
Proof.
  unfold render_pixel, pixel_colour, getPixel, setPixel.
  destruct (is_boundary _); simpl; rewrite lookup_insert_eq;
    [reflexivity|].
  f_equal. unfold intensity, max0, brightness.
  destruct (Float32.ltb Float32.zero (read_float data _)); reflexivity.
Qed.

Lemma render_pixel_elsewhere i j i' j' img :
  (i', j') <> (i, j) ->
  getPixel (render_pixel dB data position_data dim_x i j img) i' j'
  = getPixel img i' j'.
Proof.
  intros Hne. unfold render_pixel, getPixel, setPixel.
  destruct (is_boundary _); simpl; rewrite !lookup_insert_ne by congruence;
    reflexivity.
Qed.

(** A row, over any list of columns. *)
Lemma render_columns_elsewhere (columns : list Z) : forall i i' j' img,
  (i' <> i \/ j' ∉ columns) ->
  getPixel
    (foldl (fun img j => render_pixel dB data position_data dim_x i j img)
           img columns) i' j'
  = getPixel img i' j'.
Proof.
  induction columns as [|j columns IH]; intros i i' j' img Hne;
    [reflexivity|].
  simpl. rewrite IH.
  - apply render_pixel_elsewhere. intros [= -> ->].
    destruct Hne as [Hne | Hne]; [congruence|].
    apply Hne. left.
  - destruct Hne as [Hne | Hne]; [now left|].
    right. intros Hin. apply Hne. now right.
Qed.

Lemma render_columns_here (columns : list Z) : forall i j img,
  NoDup columns -> j ∈ columns ->
  getPixel
    (foldl (fun img j => render_pixel dB data position_data dim_x i j img)
           img columns) i j
  = Some (pixel_colour dB data position_data dim_x i j).
Proof.
  induction columns as [|j0 columns IH]; intros i j img Hnd Hin.
  - inversion Hin.
  - apply NoDup_cons in Hnd as [Hfresh Hnd]. simpl.
    destruct (decide (j ∈ columns)) as [Hj | Hj].
    + now apply IH.
    + apply elem_of_cons in Hin as [-> | Hin]; [|contradiction].
      rewrite render_columns_elsewhere by now right.
      apply render_pixel_here.
Qed.

(** The rows, over any list of row indices. *)
Lemma render_rows_elsewhere (rows : list Z) : forall i' j' img,
  i' ∉ rows ->
  getPixel
    (foldl (fun img i => render_row dB data position_data dim_x i img)
           img rows) i' j'
  = getPixel img i' j'.
Proof.
  induction rows as [|i rows IH]; intros i' j' img Hne; [reflexivity|].
  simpl. rewrite IH by (intros Hin; apply Hne; now right).
  apply render_columns_elsewhere. left. intros ->. apply Hne. left.
Qed.

Lemma render_rows_here (rows : list Z) : forall i j img,
  NoDup rows -> i ∈ rows -> 0 <= j < dim_x ->
  getPixel
    (foldl (fun img i => render_row dB data position_data dim_x i img)
           img rows) i j
  = Some (pixel_colour dB data position_data dim_x i j).
Proof.
  induction rows as [|i0 rows IH]; intros i j img Hnd Hin Hj.
  - inversion Hin.
  - apply NoDup_cons in Hnd as [Hfresh Hnd]. simpl.
    destruct (decide (i ∈ rows)) as [Hi | Hi].
    + now apply IH.
    + apply elem_of_cons in Hin as [-> | Hin]; [|contradiction].
      rewrite render_rows_elsewhere by exact Hi.
      apply render_columns_here; [apply NoDup_seqZ|].
      apply elem_of_seqZ. lia.
Qed.

End Bitmap.

(** C7. The file of a captured slice is named
    [capture_<orientation>_<step>_<slice>] (with the extension [.tga]), and
    its pixel of row [i] and column [j] is opaque white when the position
    byte of the cell passes the boundary test; otherwise it is opaque, has
    no red, and carries the brightness of
    [max(0, (log10(pressure^2) + dB) / dB)] on the green channel when the
    pressure is positive and on the blue channel when it is not, the other
    of the two being 0; [dB] is the configured capture range over 10. *)
Theorem captured_bitmap `{L : MathLibrary} (app : App)
  (data : list float32) (position_data : list Z)
  (dim_x dim_y slice orientation step i j : Z) :
  dim_x * dim_y <= UINT_MOD ->
  0 <= i < dim_y ->
  0 <= j < dim_x ->
  let dB := Float32.div (capture_db_ app) (Float32.of_Z 10) in
  let pressure := read_float data (i * dim_x + j) in
  let c_pos := read_uchar position_data (i * dim_x + j) in
  let file :=
    saveBitmap app data position_data dim_x dim_y slice orientation step in
  file.1 = ("capture_" ++ decimal orientation ++ "_" ++ decimal step
            ++ "_" ++ decimal slice ++ ".tga")%string
  /\ getPixel file.2 i j
     = Some (if is_boundary c_pos then mkColour 255 255 255 255
             else if Float32.ltb Float32.zero pressure
                  then mkColour 0 (brightness (intensity dB pressure)) 0 255
                  else mkColour 0 0 (brightness (intensity dB pressure)) 255).
Proof.
  intros Hsize Hi Hj dB pressure c_pos file.
  split; [reflexivity|].
  unfold file, saveBitmap, render_rows. simpl.
  rewrite render_rows_here.
  - unfold pixel_colour. rewrite wrap_uint_small; [reflexivity|].
    unfold is_uint. nia.
  - apply NoDup_seqZ.
  - apply elem_of_seqZ. lia.
  - exact Hj.
Qed.

(** C7 on the slice of [Demo], captured at step 12 as slice 3 of
    orientation 0 with a capture range of 60: the pressure -1 of row 0,
    column 1 is full blue. *)
Lemma captured_bitmap_witness :
  let file :=
    saveBitmap (Demo.at_step 12 1) Demo.slice_data Demo.slice_positions
               3 2 3 0 12 in
  file.1 = "capture_0_12_3.tga"%string
  /\ getPixel file.2 0 1 = Some (mkColour 0 0 255 255).
Proof.
  destruct (captured_bitmap (Demo.at_step 12 1) Demo.slice_data
              Demo.slice_positions 3 2 3 0 12 0 1) as [Hname Hpixel].
  - unfold UINT_MOD. lia.
  - lia.
  - lia.
  - split; [exact Hname | exact Hpixel].
Defined.

(** The other pixels of that slice: full green for the pressure 1, black
    for the pressure 0, white on the boundary cell, and no white where the
    low bits of the position byte are 6. *)
Example captured_bitmap_pixels :
  let img :=
    (saveBitmap (Demo.at_step 12 1) Demo.slice_data Demo.slice_positions
                3 2 3 0 12).2 in
  getPixel img 0 0 = Some (mkColour 0 255 0 255)
  /\ getPixel img 0 2 = Some (mkColour 0 0 0 255)
  /\ getPixel img 1 2 = Some (mkColour 255 255 255 255)
  /\ getPixel img 1 1 <> Some (mkColour 255 255 255 255)
  /\ getPixel img 2 0 = None.
Proof. vm_compute. repeat split; discriminate. Qed.

(** * Further properties *)

(** ** The device memory sum *)

(** The sum loop fails exactly when it is asked for an entry past the end
    of the vector. *)
Lemma total_mem_loop_none sizes count : forall i total,
  total_mem_loop sizes count i total = None
  <-> (0 < count)%nat /\ (length sizes < i + count)%nat.
Proof.
  induction count as [|count IH]; intros i total; simpl.
  - split; [discriminate | lia].
  - destruct (sizes !! i) as [m|] eqn:E.
    + apply lookup_lt_Some in E. rewrite IH. lia.
    + apply lookup_ge_None in E. split; [lia | reflexivity].
Qed.

Lemma total_mem_none app :
  total_mem app = None
  <-> Z.of_nat (length (device_mem_sizes_ app)) < number_of_devices_ app.
Proof. unfold total_mem. rewrite total_mem_loop_none. lia. Qed.

Lemma sum_nonnegative (l : list Z) :
  Forall (fun m => 0 <= m) l -> 0 <= foldr Z.add 0 l.
Proof. induction 1; simpl; lia. Qed.

(** Without overflow the loop adds the entries it visits. *)
Lemma total_mem_loop_sum sizes count : forall i total,
  Forall (fun m => 0 <= m) sizes ->
  (i + count <= length sizes)%nat ->
  0 <= total ->
  total + foldr Z.add 0 (take count (drop i sizes)) <= INT_MAX ->
  total_mem_loop sizes count i total
  = Some (total + foldr Z.add 0 (take count (drop i sizes))).
Proof.
  induction count as [|count IH]; intros i total Hpos Hlen Ht Hsum; simpl.
  - f_equal. lia.
  - destruct (sizes !! i) as [m|] eqn:E;
      [|apply lookup_ge_None in E; lia].
    assert (0 <= m) as Hm
        by (rewrite Forall_forall in Hpos; apply Hpos;
            apply list_elem_of_lookup; eauto).
    rewrite (drop_S _ _ _ E) in Hsum |- *. simpl in Hsum |- *.
    assert (0 <= foldr Z.add 0 (take count (drop (S i) sizes))) as Hrest.
    { apply sum_nonnegative. now apply Forall_take, Forall_drop. }
    rewrite (wrap_int_small (total + m))
      by (unfold is_int, INT_MIN, INT_MAX in *; lia).
    rewrite IH; [f_equal; lia | assumption | lia | lia | lia].
Qed.

Lemma initializeMesh_out_of_range `{K : KernelLayer} n app :
  initializeMesh n app = (ThrowOutOfRange, []) <-> total_mem app = None.
Proof.
  unfold initializeMesh, memory_check.
  destruct (total_mem app) as [t|]; [|tauto].
  split; [|discriminate].
  destruct (t <? _); [discriminate|].
  destruct (_ && _); discriminate.
Qed.

(** X1. [initializeMesh] leaves by the [std::out_of_range] of
    [vector::at] exactly when the device count exceeds the number of
    recorded memory sizes, and then before [close()] and before any call
    into the kernel layer. *)
Theorem device_count_beyond_sizes `{K : KernelLayer} (n : Z) (app : App) :
  Z.of_nat (length (device_mem_sizes_ app)) < number_of_devices_ app
  <-> initializeMesh n app = (ThrowOutOfRange, []).
Proof.
  rewrite <- total_mem_none. symmetry. apply initializeMesh_out_of_range.
Qed.

(** X2. When the vector holds at least as many sizes as there are devices,
    the sizes are not negative and their sum fits an [int], the budget of
    the memory check is the sum of the first [number_of_devices_] sizes;
    sizes recorded after them do not count. *)
Theorem total_mem_is_sum_of_first (app : App) :
  number_of_devices_ app <= Z.of_nat (length (device_mem_sizes_ app)) ->
  Forall (fun m => 0 <= m) (device_mem_sizes_ app) ->
  foldr Z.add 0
        (take (Z.to_nat (number_of_devices_ app)) (device_mem_sizes_ app))
  <= INT_MAX ->
  total_mem app
  = Some (foldr Z.add 0
                (take (Z.to_nat (number_of_devices_ app))
                      (device_mem_sizes_ app))).
Proof.
  intros Hlen Hpos Hsum. unfold total_mem.
  rewrite total_mem_loop_sum; rewrite ?drop_0; try assumption; try lia.
  reflexivity.
Qed.

Lemma total_mem_is_sum_of_first_witness :
  total_mem (Demo.app 10 10 10 false 4 [512; 256; 128] (-1)) = Some 896.
Proof.
  apply (total_mem_is_sum_of_first
           (Demo.app 10 10 10 false 4 [512; 256; 128] (-1))).
  - simpl. lia.
  - simpl. repeat constructor; lia.
  - unfold INT_MAX. simpl. lia.
Defined.

(** ** Acceptance by the memory check *)

Lemma mesh_size_in_MB_bounds nodes :
  0 <= mesh_size_in_MB nodes <= 4294
  /\ 0 <= mesh_size_in_MB_double nodes <= 4294.
Proof.
  rewrite mesh_size_in_MB_unfold, mesh_size_in_MB_double_unfold.
  pose proof (Z.mod_pos_bound (nodes * 8) (2 ^ 32)).
  pose proof (Z.mod_pos_bound (nodes * 18) (2 ^ 32)).
  split; Z.div_mod_to_equations; lia.
Qed.

(** The memory check passes exactly when the sum is defined and reaches
    the single footprint and, for a double mesh, the double one. *)
Lemma memory_check_accepts app total :
  memory_check app = (Ok total, [])
  <-> total_mem app = Some total
      /\ mesh_size_in_MB (estimated_nodes app) <= total
      /\ (isDouble (m_mesh app) = true ->
          mesh_size_in_MB_double (estimated_nodes app) <= total).
Proof.
  unfold memory_check. destruct (total_mem app) as [t|].
  - destruct (Z.ltb_spec t (mesh_size_in_MB (estimated_nodes app))).
    + split; [discriminate|]. intros ([= ->] & ? & _). lia.
    + destruct (isDouble (m_mesh app)); simpl.
      * destruct (Z.ltb_spec t
                    (mesh_size_in_MB_double (estimated_nodes app))).
        -- split; [discriminate|]. intros ([= ->] & _ & Hd).
           specialize (Hd eq_refl). lia.
        -- split; [intros [= ->]; auto|]. intros ([= ->] & _). reflexivity.
      * split; [intros [= ->]|intros ([= ->] & _)]; auto.
        repeat split; auto. discriminate.
  - split; [discriminate|]. intros (? & _). discriminate.
Qed.

(** X3. [initializeMesh] returns exactly when the sum of the device memory
    is defined, is not below the single-precision footprint and, for a
    double mesh, not below the double-precision one either; the
    single-precision test applies to a double mesh too.  It has then
    called the voxelizer, the mesh setup and [makePartition] once each, in
    this order, and not [close()]. *)
Theorem initializeMesh_returns_iff `{K : KernelLayer} (n : Z) (app : App) :
  (exists app' count,
      initializeMesh n app
      = (Ok app', [EvVoxelize; EvSetupMesh (isDouble (m_mesh app));
                   EvMakePartition count]))
  <-> exists total,
      total_mem app = Some total
      /\ mesh_size_in_MB (estimated_nodes app) <= total
      /\ (isDouble (m_mesh app) = true ->
          mesh_size_in_MB_double (estimated_nodes app) <= total).
Proof.
  split.
  - intros (app' & count & H). unfold initializeMesh in H.
    destruct (memory_check app) as [[t | c | ] evs] eqn:E;
      [|discriminate|discriminate].
    pose proof (memory_check_ok_events _ _ _ E) as ->.
    exists t. now apply memory_check_accepts.
  - intros (total & H). apply memory_check_accepts in H.
    eexists _, _. now rewrite (initializeMesh_accepts n app total H).
Qed.

(** X4. The computed footprints never exceed 4294 MB, so a device memory
    sum of 4294 MB or more accepts every geometry at every grid spacing and
    precision. *)
Theorem large_budget_accepts_all `{K : KernelLayer} (n : Z) (app : App)
  (total : Z) :
  total_mem app = Some total ->
  4294 <= total ->
  exists app' count,
    initializeMesh n app
    = (Ok app', [EvVoxelize; EvSetupMesh (isDouble (m_mesh app));
                 EvMakePartition count]).
Proof.
  intros Ht Hbig.
  destruct (mesh_size_in_MB_bounds (estimated_nodes app)) as [Hs Hd].
  assert (memory_check app = (Ok total, [])) as Hc
      by (apply memory_check_accepts; repeat split; [assumption|lia|lia]).
  eexists _, _. now rewrite (initializeMesh_accepts n app total Hc).
Qed.

(** A box of 1024 x 1024 x 1024 cells in double precision on one device of
    4294 MB. *)
Lemma large_budget_accepts_all_witness :
  exists app' count,
    initializeMesh 2 (Demo.app 1024 1024 1024 true 4 [4294] (-1))
    = (Ok app', [EvVoxelize; EvSetupMesh true; EvMakePartition count]).
Proof.
  apply (large_budget_accepts_all 2
           (Demo.app 1024 1024 1024 true 4 [4294] (-1)) 4294).
  - reflexivity.
  - lia.
Defined.

(** X5. Without any device the sum is 0, and the check still passes for a
    mesh whose footprint rounds down to 0 MB: fewer than 125000 estimated
    nodes in single precision, fewer than 55556 in double. *)
Theorem small_mesh_accepted_without_device `{K : KernelLayer} (n : Z)
  (app : App) :
  number_of_devices_ app <= 0 ->
  estimated_nodes app < (if isDouble (m_mesh app) then 55556 else 125000) ->
  total_mem app = Some 0
  /\ exists app' count,
      initializeMesh n app
      = (Ok app', [EvVoxelize; EvSetupMesh (isDouble (m_mesh app));
                   EvMakePartition count]).
Proof.
  intros Hn Hnodes.
  assert (total_mem app = Some 0) as Ht.
  { unfold total_mem. replace (Z.to_nat (number_of_devices_ app)) with 0%nat
      by lia. reflexivity. }
  split; [exact Ht|].
  assert (0 <= estimated_nodes app) as Hlo
      by (apply (wrap_uint_range (Float32.trunc _))).
  assert (memory_check app = (Ok 0, [])) as Hc.
  { apply memory_check_accepts. split; [exact Ht|].
    rewrite mesh_size_in_MB_unfold, mesh_size_in_MB_double_unfold.
    destruct (isDouble (m_mesh app)).
    - rewrite !Z.mod_small by lia. split; [|intros _];
        Z.div_mod_to_equations; lia.
    - rewrite Z.mod_small by lia. split; [|discriminate].
      Z.div_mod_to_equations; lia. }
  eexists _, _. now rewrite (initializeMesh_accepts n app 0 Hc).
Qed.

Lemma small_mesh_accepted_without_device_witness :
  total_mem (Demo.app 10 10 10 false 4 [] (-1)) = Some 0
  /\ exists app' count,
      initializeMesh 2 (Demo.app 10 10 10 false 4 [] (-1))
      = (Ok app', [EvVoxelize; EvSetupMesh false; EvMakePartition count]).
Proof.
  apply (small_mesh_accepted_without_device 2
           (Demo.app 10 10 10 false 4 [] (-1))).
  - simpl. lia.
  - reflexivity.
Defined.

(** ** What mesh initialization keeps *)

(** X6. A successful [initializeMesh] changes the mesh and the element
    count only: the step counter, the direction, the response buffer, the
    timing estimate, the parameters, the geometry and the device data are
    what they were, the mesh keeps its precision, the element count is a
    value of [unsigned int], and the mesh is partitioned by the forced
    count, by 1 or by the requested count. *)
Theorem initializeMesh_keeps `{K : KernelLayer} (n : Z) (app app' : App)
  (evs : list Event) :
  initializeMesh n app = (Ok app', evs) ->
  (current_step_ app' = current_step_ app
   /\ step_direction_ app' = step_direction_ app
   /\ responses_ app' = responses_ app
   /\ time_per_step_ app' = time_per_step_ app)
  /\ (m_parameters app' = m_parameters app
      /\ m_geometry app' = m_geometry app
      /\ capture_db_ app' = capture_db_ app)
  /\ (number_of_devices_ app' = number_of_devices_ app
      /\ device_mem_sizes_ app' = device_mem_sizes_ app
      /\ force_partition_to_ app' = force_partition_to_ app)
  /\ isDouble (m_mesh app') = isDouble (m_mesh app)
  /\ is_uint (num_elements_ app')
  /\ (getNumberOfPartitions (m_mesh app') = force_partition_to_ app
      \/ getNumberOfPartitions (m_mesh app') = 1
      \/ getNumberOfPartitions (m_mesh app') = n).
Proof.
  intros H. unfold initializeMesh in H.
  destruct (memory_check app) as [[t | c | ] evs0];
    [|discriminate|discriminate].
  injection H as <- _.
  split; [repeat split|]. split; [repeat split|]. split; [repeat split|].
  split; [reflexivity|]. split; [apply wrap_uint_range|].
  cbn [m_mesh with_mesh getNumberOfPartitions makePartition].
  unfold partition_count. destruct (forced_accepted _); [now left|].
  destruct (_ <? _); auto.
Qed.

Lemma initializeMesh_keeps_witness :
  exists app' evs,
    initializeMesh 2 (Demo.at_step 7 (-1)) = (Ok app', evs)
    /\ current_step_ app' = 7
    /\ step_direction_ app' = -1
    /\ responses_ app' = replicate 20 Float32.zero.
Proof.
  destruct (initializeMesh 2 (Demo.at_step 7 (-1)))
    as [[app' | c | ] evs] eqn:E.
  - exists app', evs. split; [reflexivity|].
    destruct (initializeMesh_keeps 2 (Demo.at_step 7 (-1)) app' evs E)
      as ((Hc & Hd & Hr & _) & _).
    rewrite Hc, Hd, Hr. repeat split.
  - vm_compute in E. discriminate.
  - vm_compute in E. discriminate.
Defined.

(** X7. With the forced count 1 and the requested count 1, the settings
    of [runVisualization], every branch of the partition decision gives 1:
    the mesh gets 1 partition whatever the device count, the element count
    and the precision are. *)
Theorem visualization_single_partition `{K : KernelLayer} (app : App)
  (total : Z) :
  force_partition_to_ app = 1 ->
  memory_check app = (Ok total, []) ->
  (forall elements devices,
      partition_count 1
        (with_devices devices (device_mem_sizes_ app)
           (with_num_elements elements app)) = 1)
  /\ exists app',
      initializeMesh 1 app
      = (Ok app', [EvVoxelize; EvSetupMesh (isDouble (m_mesh app));
                   EvMakePartition 1])
      /\ getNumberOfPartitions (m_mesh app') = 1.
Proof.
  intros Hf Hc.
  assert (forall a, force_partition_to_ a = 1 -> partition_count 1 a = 1)
    as Hone.
  { intros a Ha. unfold partition_count. rewrite Ha.
    destruct (forced_accepted a); [reflexivity|].
    now destruct (_ <? _). }
  split.
  - intros elements devices. now apply Hone.
  - eexists. rewrite (initializeMesh_accepts 1 app total Hc). cbv zeta.
    rewrite Hone by exact Hf. split; reflexivity.
Qed.

(** No device at all and 200e6 elements: still 1 partition. *)
Lemma visualization_single_partition_witness :
  partition_count 1
    (with_devices 0 [4000]
       (with_num_elements 200000000
          (Demo.app 100 100 100 false 4 [4000] 1))) = 1.
Proof.
  apply (proj1 (visualization_single_partition
                  (Demo.app 100 100 100 false 4 [4000] 1) 4000
                  eq_refl eq_refl)).
Defined.

(** ** Device enumeration *)

Lemma total_mem_loop_app sizes more count : forall i total,
  (i + count <= length sizes)%nat ->
  total_mem_loop (sizes ++ more) count i total
  = total_mem_loop sizes count i total.
Proof.
  induction count as [|count IH]; intros i total Hlen; [reflexivity|].
  simpl. rewrite lookup_app_l by lia.
  destruct (sizes !! i); [|reflexivity]. apply IH. lia.
Qed.

(** X8. After [queryDevices] the vector holds at least as many sizes as
    there are devices, whatever it held before, so that a following
    [initializeMesh] does not leave by [std::out_of_range]. *)
Theorem queryDevices_sizes_cover_devices `{K : KernelLayer} (count : Z)
  (free_mem : nat -> Z) (app : App) (n : Z) :
  number_of_devices_ (queryDevices count free_mem app)
  <= Z.of_nat (length (device_mem_sizes_ (queryDevices count free_mem app)))
  /\ is_Some (total_mem (queryDevices count free_mem app))
  /\ initializeMesh n (queryDevices count free_mem app)
     <> (ThrowOutOfRange, []).
Proof.
  assert (number_of_devices_ (queryDevices count free_mem app)
          <= Z.of_nat (length (device_mem_sizes_
                                 (queryDevices count free_mem app)))) as Hle.
  { simpl. rewrite length_app, length_map, length_seq. lia. }
  split; [exact Hle|]. split.
  - destruct (total_mem _) eqn:E; [eauto|].
    apply total_mem_none in E. lia.
  - intros E. apply initializeMesh_out_of_range, total_mem_none in E. lia.
Qed.

(** X9. A second [queryDevices] does not refresh the budget: when the
    device count is the one already recorded and the sum is defined, the
    new sizes are pushed behind the old ones and the sum of the memory
    check is the one of the first enumeration. *)
Theorem requery_keeps_old_budget (count : Z) (free_mem : nat -> Z)
  (app : App) (total : Z) :
  number_of_devices_ app = count ->
  total_mem app = Some total ->
  total_mem (queryDevices count free_mem app) = Some total
  /\ length (device_mem_sizes_ (queryDevices count free_mem app))
     = (length (device_mem_sizes_ app) + Z.to_nat count)%nat.
Proof.
  intros Hn Ht. split.
  - rewrite <- Ht. unfold total_mem. simpl. rewrite Hn.
    apply total_mem_loop_app.
    assert (total_mem app <> None) as Hs by congruence.
    rewrite total_mem_none in Hs. lia.
  - simpl. now rewrite length_app, length_map, length_seq.
Qed.

(** Two devices with 8 GB and 4 GB free at the first enumeration and 64 MB
    each at the second: the budget stays at 12000 MB. *)
Lemma requery_keeps_old_budget_witness :
  total_mem
    (queryDevices 2 Sample.free_later
       (queryDevices 2 Sample.free_first
          (Demo.app 10 10 10 false 4 [] (-1))))
  = Some 12000
  /\ length
       (device_mem_sizes_
          (queryDevices 2 Sample.free_later
             (queryDevices 2 Sample.free_first
                (Demo.app 10 10 10 false 4 [] (-1)))))
     = 4%nat.
Proof.
  apply (requery_keeps_old_budget 2 Sample.free_later
           (queryDevices 2 Sample.free_first
              (Demo.app 10 10 10 false 4 [] (-1))) 12000).
  - reflexivity.
  - reflexivity.
Defined.

(** ** The step counter *)

Section Counter.
Context `{K : KernelLayer}.

(** X11. [resetPressureMesh] sets the counter to 0 and keeps the
    direction, the responses and the timing estimate: after it, [n] steps
    forward bring the counter to [n], while one step in the reverse
    direction wraps the counter to 4294967295. *)
Theorem reset_then_step (ticks : list Z) (end_t : Z) (app : App) :
  Z.of_nat (length ticks) < UINT_MOD ->
  (step_direction_ (resetPressureMesh app) = step_direction_ app
   /\ responses_ (resetPressureMesh app) = responses_ app
   /\ time_per_step_ (resetPressureMesh app) = time_per_step_ app)
  /\ (step_direction_ app = 1 ->
      current_step_ (executeSteps ticks (resetPressureMesh app))
      = Z.of_nat (length ticks))
  /\ (step_direction_ app = -1 ->
      current_step_ (executeStep end_t (resetPressureMesh app))
      = 4294967295).
Proof.
  intros Hlen. split; [|split].
  - repeat split.
  - intros Hd. rewrite executeSteps_current_step
      by (simpl; unfold is_uint, UINT_MOD; lia).
    change (current_step_ (resetPressureMesh app)) with 0.
    change (step_direction_ (resetPressureMesh app))
      with (step_direction_ app).
    rewrite Hd. rewrite wrap_uint_small; [lia|]. unfold is_uint. lia.
  - intros Hd. rewrite executeStep_current_step.
    change (current_step_ (resetPressureMesh app)) with 0.
    change (step_direction_ (resetPressureMesh app))
      with (step_direction_ app).
    rewrite Hd. reflexivity.
Qed.

End Counter.

(** After a reset at step 10, three steps forward reach step 3, and a step
    in reverse reaches 4294967295. *)
Lemma reset_then_step_witness :
  current_step_
    (executeSteps [1000; 1000; 1000] (resetPressureMesh (Demo.at_step 10 1)))
  = 3
  /\ current_step_
       (executeStep 1000 (resetPressureMesh (Demo.at_step 10 (-1))))
     = 4294967295.
Proof.
  split.
  - apply (reset_then_step [1000; 1000; 1000] 1000 (Demo.at_step 10 1));
      [unfold UINT_MOD; simpl; lia | reflexivity].
  - apply (reset_then_step [] 1000 (Demo.at_step 10 (-1)));
      [unfold UINT_MOD; simpl; lia | reflexivity].
Defined.

(** ** Capture runs under any interrupt behaviour *)

Lemma executed_steps_bounds env remaining : forall i,
  (executed_steps env remaining i <= remaining)%nat
  /\ ((0 < remaining)%nat -> (1 <= executed_steps env remaining i)%nat).
Proof.
  induction remaining as [|remaining IH]; intros i; simpl; [lia|].
  destruct (interrupt_at env i); [lia|].
  destruct (IH (S i)). lia.
Qed.

(** The polls before the last executed step answer no, and the loop stops
    short of its bound only on a yes. *)
Lemma executed_steps_polls env remaining : forall i,
  (forall j, (S j < executed_steps env remaining i)%nat ->
             interrupt_at env (i + j)%nat = false)
  /\ ((executed_steps env remaining i < remaining)%nat ->
      interrupt_at env (i + executed_steps env remaining i - 1)%nat = true).
Proof.
  induction remaining as [|remaining IH]; intros i; simpl.
  - split; intros; lia.
  - destruct (interrupt_at env i) eqn:E.
    + split; [intros; lia|]. intros _.
      replace (i + 1 - 1)%nat with i by lia. exact E.
    + destruct (IH (S i)) as [Hno Hyes]. split.
      * intros [|j] Hj; [now rewrite Nat.add_0_r|].
        replace (i + S j)%nat with (S i + j)%nat by lia. apply Hno. lia.
      * intros Hlt.
        replace (i + S (executed_steps env remaining (S i)) - 1)%nat
          with (S i + executed_steps env remaining (S i) - 1)%nat by lia.
        apply Hyes. lia.
Qed.

Section AnyRun.
Context `{K : KernelLayer}.

Lemma capture_loop_executes env remaining : forall i app,
  (capture_loop env remaining i app).1
  = executeSteps
      (map (step_ticks env) (seq i (executed_steps env remaining i))) app
  /\ length (capture_loop env remaining i app).2
     = (2 * executed_steps env remaining i)%nat.
Proof.
  induction remaining as [|remaining IH]; intros i app; simpl;
    [split; reflexivity|].
  destruct (interrupt_at env i); [split; reflexivity|].
  destruct (IH (S i) (executeStep (step_ticks env i) app)) as [Hs He].
  destruct (capture_loop env remaining (S i) _) as [final evs].
  simpl in *. split; [exact Hs | lia].
Qed.

(** The shape of a capture run whose memory check passes. *)
Lemma runCapture_accepted env app total :
  let app0 := with_mesh (setDouble false (m_mesh app)) app in
  memory_check app0 = (Ok total, []) ->
  exists ready init evs,
    initializeMesh 2 app0 = (Ok ready, init)
    /\ m_parameters ready = m_parameters app
    /\ current_step_ ready = current_step_ app
    /\ step_direction_ ready = step_direction_ app
    /\ runCapture env app
       = (Ok (with_time_per_step
                (Float32.div
                   (seconds (run_ticks env))
                   (Float32.of_Z (wrap_uint (getNumSteps (m_parameters app)))))
                (capture_loop env
                   (Z.to_nat (wrap_uint (getNumSteps (m_parameters app))))
                   0%nat (zero_responses ready)).1),
          init ++ evs)
    /\ evs = (capture_loop env
                (Z.to_nat (wrap_uint (getNumSteps (m_parameters app))))
                0%nat (zero_responses ready)).2.
Proof.
  intros app0 Hm.
  pose proof (initializeMesh_accepts 2 app0 total Hm) as Hinit.
  cbv zeta in Hinit. set (ready := with_mesh _ _) in Hinit.
  eexists ready, _,
    (capture_loop env
       (Z.to_nat (wrap_uint (getNumSteps (m_parameters app))))
       0%nat (zero_responses ready)).2.
  split; [exact Hinit|].
  split; [reflexivity|]. split; [reflexivity|]. split; [reflexivity|].
  split; [|reflexivity].
  unfold runCapture. fold app0. rewrite Hinit.
  change (m_parameters (zero_responses ready)) with (m_parameters app).
  change (m_parameters ready) with (m_parameters app).
  now destruct (capture_loop env _ 0%nat (zero_responses ready)).
Qed.

(** X12. Whatever the interrupt callback answers, a capture run whose
    memory check passes executes at most [numSteps] steps and, when
    [numSteps] is positive, at least one, also when the interrupt was
    raised before the run began; it polls the callback once after each
    step, every poll but the last answers no, and it stops short of
    [numSteps] only on a yes. *)
Theorem capture_run_steps (env : Surroundings) (app : App) (total : Z) :
  let app0 := with_mesh (setDouble false (m_mesh app)) app in
  let bound := Z.to_nat (wrap_uint (getNumSteps (m_parameters app))) in
  let k := executed_steps env bound 0 in
  memory_check app0 = (Ok total, []) ->
  exists ready init evs,
    initializeMesh 2 app0 = (Ok ready, init)
    /\ runCapture env app
       = (Ok (with_time_per_step
                (Float32.div
                   (seconds (run_ticks env))
                   (Float32.of_Z (wrap_uint (getNumSteps (m_parameters app)))))
                (executeSteps (map (step_ticks env) (seq 0 k))
                              (zero_responses ready))),
          init ++ evs)
    /\ length evs = (2 * k)%nat
    /\ (k <= bound)%nat
    /\ ((0 < bound)%nat -> (1 <= k)%nat)
    /\ (forall j, (S j < k)%nat -> interrupt_at env j = false)
    /\ ((k < bound)%nat -> interrupt_at env (k - 1)%nat = true).
Proof.
  intros app0 bound k Hm.
  destruct (runCapture_accepted env app total Hm)
    as (ready & init & evs & Hinit & _ & _ & _ & Hrun & Hevs).
  destruct (capture_loop_executes env bound 0%nat (zero_responses ready))
    as [Hs He].
  destruct (executed_steps_bounds env bound 0%nat) as [Hle Hge].
  destruct (executed_steps_polls env bound 0%nat) as [Hno Hyes].
  exists ready, init, evs. split; [exact Hinit|]. split.
  { rewrite Hrun. fold bound. now rewrite Hs. }
  split; [subst evs; exact He|]. split; [exact Hle|]. split; [exact Hge|].
  split; [exact Hno | exact Hyes].
Qed.

(** X13. [runCapture] does not reset the step counter or the direction:
    a run continues from the counter it finds, in the direction it finds,
    and ends at that counter plus the number of executed steps times the
    direction, modulo 2^32. *)
Theorem capture_run_continues (env : Surroundings) (app : App)
  (total : Z) :
  let app0 := with_mesh (setDouble false (m_mesh app)) app in
  let bound := Z.to_nat (wrap_uint (getNumSteps (m_parameters app))) in
  memory_check app0 = (Ok total, []) ->
  is_uint (current_step_ app) ->
  exists final evs,
    runCapture env app = (Ok final, evs)
    /\ step_direction_ final = step_direction_ app
    /\ current_step_ final
       = wrap_uint (current_step_ app
                    + Z.of_nat (executed_steps env bound 0)
                      * step_direction_ app).
Proof.
  intros app0 bound Hm Hu.
  destruct (runCapture_accepted env app total Hm)
    as (ready & init & evs & _ & _ & Hc & Hd & Hrun & _).
  destruct (capture_loop_executes env bound 0%nat (zero_responses ready))
    as [Hs _].
  eexists _, _. split; [exact Hrun|]. fold bound. rewrite Hs.
  change (step_direction_ (with_time_per_step ?t ?a))
    with (step_direction_ a).
  change (current_step_ (with_time_per_step ?t ?a)) with (current_step_ a).
  rewrite executeSteps_step_direction, executeSteps_current_step
    by (change (current_step_ (zero_responses ready))
          with (current_step_ ready); now rewrite Hc).
  change (current_step_ (zero_responses ready)) with (current_step_ ready).
  change (step_direction_ (zero_responses ready))
    with (step_direction_ ready).
  rewrite Hc, Hd, length_map, length_seq. split; reflexivity.
Qed.

(** Division of any [float] by +0 gives an infinity or NaN. *)
Lemma div_by_zero_not_finite (f : float32) :
  not_finite (Float32.div f Float32.zero).
Proof. destruct f; exact I. Qed.

(** X14. A capture run with a step budget of 0 executes no step and polls
    nothing, leaves an empty response buffer and the step counter where it
    was, and its division of the elapsed time by the step count gives a
    timing estimate that is an infinity or NaN. *)
Theorem capture_run_without_steps (env : Surroundings) (app : App)
  (total : Z) :
  let app0 := with_mesh (setDouble false (m_mesh app)) app in
  memory_check app0 = (Ok total, []) ->
  getNumSteps (m_parameters app) = 0 ->
  exists ready final init,
    initializeMesh 2 app0 = (Ok ready, init)
    /\ runCapture env app = (Ok final, init)
    /\ responses_ final = []
    /\ current_step_ final = current_step_ app
    /\ not_finite (time_per_step_ final).
Proof.
  intros app0 Hm Hz.
  destruct (runCapture_accepted env app total Hm)
    as (ready & init & evs & Hinit & Hp & Hc & _ & Hrun & Hevs).
  rewrite Hz in Hrun, Hevs. simpl in Hrun, Hevs. subst evs.
  rewrite app_nil_r in Hrun.
  eexists ready, _, init. split; [exact Hinit|]. split; [exact Hrun|].
  split; [|split].
  - simpl. now rewrite Hp, Hz.
  - exact Hc.
  - apply div_by_zero_not_finite.
Qed.

End AnyRun.

Lemma initializeMesh_ok_inv `{K : KernelLayer} n app app' evs :
  initializeMesh n app = (Ok app', evs) ->
  exists total, memory_check app = (Ok total, []).
Proof.
  unfold initializeMesh.
  destruct (memory_check app) as [[t | c | ] evs0] eqn:E;
    [|discriminate|discriminate].
  intros _. exists t.
  pose proof (memory_check_ok_events _ _ _ E) as ->. reflexivity.
Qed.

(** X15. [runCapture] always runs in single precision: whether it returns
    depends on the device memory sum and on the single-precision footprint
    only, not on the precision the mesh was configured with nor on the
    interrupt callback.  When the sum is below that footprint it leaves by
    [throw(-1)] after [close()], without a step or a poll. *)
Theorem runCapture_returns_iff `{K : KernelLayer} (env : Surroundings)
  (app : App) :
  ((exists final evs, runCapture env app = (Ok final, evs))
   <-> exists total,
       total_mem app = Some total
       /\ mesh_size_in_MB (estimated_nodes app) <= total)
  /\ (forall total,
         total_mem app = Some total ->
         total < mesh_size_in_MB (estimated_nodes app) ->
         runCapture env app = (ThrowInt (-1), [EvClose])).
Proof.
  set (app0 := with_mesh (setDouble false (m_mesh app)) app).
  split; [split|].
  - intros (final & evs & H). unfold runCapture in H. fold app0 in H.
    destruct (initializeMesh 2 app0) as [[ready | c | ] init] eqn:E;
      [|discriminate|discriminate].
    destruct (initializeMesh_ok_inv _ _ _ _ E) as [total Hm].
    apply memory_check_accepts in Hm as (Ht & Hs & _).
    exists total. split; [exact Ht | exact Hs].
  - intros (total & Ht & Hs).
    assert (memory_check app0 = (Ok total, [])) as Hm
        by (apply memory_check_accepts; repeat split;
            [exact Ht | exact Hs | discriminate]).
    destruct (runCapture_accepted env app total Hm)
      as (ready & init & evs & _ & _ & _ & _ & Hrun & _).
    eexists _, _. exact Hrun.
  - intros total Ht Hlt. unfold runCapture. fold app0.
    rewrite (initializeMesh_rejects 2 app0 total Ht Hlt). reflexivity.
Qed.

(** A box of 10^6 cells configured in double precision (18 MB) on a device
    with 10 MB: the run returns, and on a device with 5 MB it is
    rejected. *)
Lemma runCapture_returns_iff_witness :
  (exists final evs,
      runCapture (Demo.always false)
                 (Demo.app 100 100 100 true 2 [10] (-1)) = (Ok final, evs))
  /\ runCapture (Demo.always false) (Demo.app 100 100 100 true 2 [5] (-1))
     = (ThrowInt (-1), [EvClose]).
Proof.
  split.
  - apply (proj1 (runCapture_returns_iff (Demo.always false)
                    (Demo.app 100 100 100 true 2 [10] (-1)))).
    exists 10. split; [reflexivity|]. vm_compute. discriminate.
  - apply (proj2 (runCapture_returns_iff (Demo.always false)
                    (Demo.app 100 100 100 true 2 [5] (-1))) 5).
    + reflexivity.
    + reflexivity.
Defined.

(** A run of 3 steps whose interrupt is raised from the start executes one
    step and polls once. *)
Lemma capture_run_steps_witness :
  exists final init evs,
    runCapture (Demo.always true) (Demo.app 10 10 10 false 3 [4000] (-1))
    = (Ok final, init ++ evs)
    /\ length evs = 2%nat.
Proof.
  destruct (capture_run_steps (Demo.always true)
              (Demo.app 10 10 10 false 3 [4000] (-1)) 4000 eq_refl)
    as (ready & init & evs & _ & Hrun & Hlen & _).
  eexists _, init, evs. split; [exact Hrun | exact Hlen].
Defined.

(** A run of 20 steps entered at step 10 in the reverse direction passes
    below 0 and ends with the counter at 4294967286. *)
Lemma capture_run_continues_witness :
  exists final evs,
    runCapture (Demo.always false) (Demo.at_step 10 (-1)) = (Ok final, evs)
    /\ step_direction_ final = -1
    /\ current_step_ final = 4294967286.
Proof.
  destruct (capture_run_continues (Demo.always false)
              (Demo.at_step 10 (-1)) 4000 eq_refl)
    as (final & evs & Hrun & Hd & Hc).
  - unfold is_uint, UINT_MOD. simpl. lia.
  - exists final, evs. split; [exact Hrun|]. split; [exact Hd | exact Hc].
Defined.

Lemma capture_run_without_steps_witness :
  exists final init,
    runCapture (Demo.always false) (Demo.app 10 10 10 false 0 [4000] (-1))
    = (Ok final, init)
    /\ responses_ final = []
    /\ not_finite (time_per_step_ final).
Proof.
  destruct (capture_run_without_steps (Demo.always false)
              (Demo.app 10 10 10 false 0 [4000] (-1)) 4000 eq_refl eq_refl)
    as (ready & final & init & _ & Hrun & Hr & _ & Ht).
  exists final, init. split; [exact Hrun|]. split; [exact Hr | exact Ht].
Defined.

(** ** The extent and the colours of a captured bitmap *)

Section BitmapExtent.
Context `{L : MathLibrary}.
Variable dB : float32.
Variable data : list float32.
Variable position_data : list Z.
Variable dim_x : Z.

Lemma render_rows_outside_columns (rows : list Z) : forall i' j' img,
  ~ 0 <= j' < dim_x ->
  getPixel
    (foldl (fun img i => render_row dB data position_data dim_x i img)
           img rows) i' j'
  = getPixel img i' j'.
Proof.
  induction rows as [|i rows IH]; intros i' j' img Hj; [reflexivity|].
  simpl. rewrite IH by exact Hj.
  apply render_columns_elsewhere. right. rewrite elem_of_seqZ. lia.
Qed.

(** The pixels of the rendered image: those of the grid, with the colour
    of their cell, and no other. *)
Lemma render_rows_pixels dim_y i j :
  getPixel (render_rows dB data position_data dim_x dim_y
                        (create (wrap_short dim_x) (wrap_short dim_y))) i j
  = if decide (0 <= i < dim_y /\ 0 <= j < dim_x)
    then Some (pixel_colour dB data position_data dim_x i j)
    else None.
Proof.
  unfold render_rows. destruct (decide _) as [[Hi Hj] | Hout].
  - apply render_rows_here; [apply NoDup_seqZ | | exact Hj].
    apply elem_of_seqZ. lia.
  - destruct (decide (0 <= j < dim_x)) as [Hj | Hj].
    + rewrite render_rows_elsewhere; [reflexivity|].
      rewrite elem_of_seqZ. lia.
    + rewrite render_rows_outside_columns by exact Hj. reflexivity.
Qed.

Lemma render_pixel_dims i j img :
  m_width (render_pixel dB data position_data dim_x i j img) = m_width img
  /\ m_height (render_pixel dB data position_data dim_x i j img)
     = m_height img.
Proof. unfold render_pixel. destruct (is_boundary _); split; reflexivity. Qed.

Lemma render_row_dims i img :
  m_width (render_row dB data position_data dim_x i img) = m_width img
  /\ m_height (render_row dB data position_data dim_x i img) = m_height img.
Proof.
  unfold render_row. generalize (seqZ 0 dim_x). intros columns.
  revert img. induction columns as [|j columns IH]; intros img;
    [split; reflexivity|].
  simpl.
  destruct (IH (render_pixel dB data position_data dim_x i j img))
    as [-> ->].
  apply render_pixel_dims.
Qed.

Lemma render_rows_dims dim_y img :
  m_width (render_rows dB data position_data dim_x dim_y img) = m_width img
  /\ m_height (render_rows dB data position_data dim_x dim_y img)
     = m_height img.
Proof.
  unfold render_rows. generalize (seqZ 0 dim_y). intros rows.
  revert img. induction rows as [|i rows IH]; intros img;
    [split; reflexivity|].
  simpl.
  destruct (IH (render_row dB data position_data dim_x i img)) as [-> ->].
  apply render_row_dims.
Qed.

Lemma brightness_byte c : 0 <= brightness c <= 255.
Proof.
  unfold brightness, Float32.to_uchar.
  pose proof (Z.mod_pos_bound
                (Float32.trunc (Float32.mul c (Float32.of_Z 255))) 256).
  lia.
Qed.

End BitmapExtent.

(** X16. The image of a captured slice has a pixel at row [i] and column
    [j] exactly when [0 <= i < dim_y] and [0 <= j < dim_x]; an empty slice
    gives an image without pixels. *)
Theorem bitmap_pixels_are_the_grid `{L : MathLibrary} (app : App)
  (data : list float32) (position_data : list Z)
  (dim_x dim_y slice orientation step i j : Z) :
  is_Some (getPixel
             (saveBitmap app data position_data dim_x dim_y slice
                         orientation step).2 i j)
  <-> 0 <= i < dim_y /\ 0 <= j < dim_x.
Proof.
  unfold saveBitmap. simpl. rewrite render_rows_pixels.
  destruct (decide _) as [H | H].
  - split; [intros _; exact H | eauto].
  - split; [intros [c Hc]; discriminate | tauto].
Qed.

(** X17. Every pixel of a captured slice is opaque, its red channel is 0
    or 255, its green and blue channels are bytes, and one of the two is
    0 unless the pixel is white. *)
Theorem bitmap_pixels_are_opaque_bytes `{L : MathLibrary} (app : App)
  (data : list float32) (position_data : list Z)
  (dim_x dim_y slice orientation step i j : Z) (co : Colour) :
  getPixel
    (saveBitmap app data position_data dim_x dim_y slice orientation step).2
    i j = Some co ->
  a co = 255
  /\ (r co = 0 \/ r co = 255)
  /\ 0 <= g co <= 255
  /\ 0 <= b co <= 255
  /\ (co = mkColour 255 255 255 255 \/ g co = 0 \/ b co = 0).
Proof.
  unfold saveBitmap. simpl. rewrite render_rows_pixels.
  destruct (decide _) as [_ | _]; [|discriminate].
  intros [= <-]. unfold pixel_colour.
  destruct (is_boundary _); [|destruct (Float32.ltb _ _)];
    cbn [a r g b]; (split; [reflexivity|]); (split; [auto|]);
    (split; [first [apply brightness_byte | lia]|]);
    (split; [first [apply brightness_byte | lia]|]); auto.
Qed.

Lemma bitmap_pixels_are_opaque_bytes_witness :
  a (mkColour 0 0 255 255) = 255
  /\ (r (mkColour 0 0 255 255) = 0 \/ r (mkColour 0 0 255 255) = 255)
  /\ 0 <= g (mkColour 0 0 255 255) <= 255
  /\ 0 <= b (mkColour 0 0 255 255) <= 255
  /\ (mkColour 0 0 255 255 = mkColour 255 255 255 255
      \/ g (mkColour 0 0 255 255) = 0 \/ b (mkColour 0 0 255 255) = 0).
Proof.
  apply (bitmap_pixels_are_opaque_bytes (Demo.at_step 12 1) Demo.slice_data
           Demo.slice_positions 3 2 3 0 12 0 1).
  reflexivity.
Defined.

(** X18. The width and the height of the image are the dimensions of the
    slice converted to [short]: equal to them below 32768, and negative
    from 32768 to 65535, while the loops still write every column of the
    slice. *)
Theorem bitmap_header_is_short `{L : MathLibrary} (app : App)
  (data : list float32) (position_data : list Z)
  (dim_x dim_y slice orientation step : Z) :
  let img :=
    (saveBitmap app data position_data dim_x dim_y slice orientation step).2
  in
  (0 <= dim_x < 32768 -> m_width img = dim_x)
  /\ (0 <= dim_y < 32768 -> m_height img = dim_y)
  /\ (32768 <= dim_x < 65536 ->
      m_width img = dim_x - 65536
      /\ (0 < dim_y -> is_Some (getPixel img 0 (dim_x - 1)))).
Proof.
  intros img. unfold img, saveBitmap. cbn [snd].
  destruct (render_rows_dims
              (Float32.div (capture_db_ app) (Float32.of_Z 10))
              data position_data dim_x dim_y
              (create (wrap_short dim_x) (wrap_short dim_y))) as [-> ->].
  cbn [m_width m_height create]. unfold wrap_short. split; [|split].
  - intros H. rewrite Z.mod_small by lia. lia.
  - intros H. rewrite Z.mod_small by lia. lia.
  - intros H. split.
    + replace (dim_x + 2 ^ 15) with (dim_x - 2 ^ 15 + 1 * 2 ^ 16) by lia.
      rewrite Z.mod_add by lia. rewrite Z.mod_small by lia. lia.
    + intros Hy. fold (wrap_short dim_x). fold (wrap_short dim_y).
      rewrite render_rows_pixels.
      destruct (decide _); [eauto | lia].
Qed.

Lemma bitmap_header_is_short_witness :
  m_width (saveBitmap (Demo.at_step 12 1) [] [] 40000 1 3 0 12).2 = -25536
  /\ is_Some
       (getPixel (saveBitmap (Demo.at_step 12 1) [] [] 40000 1 3 0 12).2
                 0 39999).
Proof.
  destruct (bitmap_header_is_short (Demo.at_step 12 1) [] [] 40000 1 3 0 12)
    as (_ & _ & H).
  destruct (H ltac:(lia)) as [Hw Hp].
  split; [exact Hw | apply Hp; lia].
Defined.

(** ** The names of the capture files *)

(** The digits of a number, followed by a character that is no digit,
    determine the number and what follows. *)
Lemma digits_then_separator (sep : Ascii.ascii) (d1 : Decimal.uint) :
  forall (d2 : Decimal.uint) (r1 r2 : string),
    uint_of_char sep (Some Decimal.Nil) = None ->
    (NilEmpty.string_of_uint d1 ++ String sep r1)%string
    = (NilEmpty.string_of_uint d2 ++ String sep r2)%string ->
    d1 = d2 /\ r1 = r2.
Proof.
  induction d1 as [|d1 IH|d1 IH|d1 IH|d1 IH|d1 IH|d1 IH|d1 IH|d1 IH|d1 IH
                   |d1 IH];
    intros [|d2|d2|d2|d2|d2|d2|d2|d2|d2|d2] r1 r2 Hsep H; simpl in H;
    try (injection H as H; subst; simpl in Hsep; discriminate);
    try discriminate;
    try (injection H as H; destruct (IH d2 r1 r2 Hsep H) as [-> ->];
         split; reflexivity).
  injection H as ->. split; reflexivity.
Qed.

Lemma decimal_digits (n : Z) :
  decimal n = NilEmpty.string_of_uint (N.to_uint (Z.to_N n)).
Proof.
  unfold decimal, NilZero.string_of_uint.
  destruct (N.to_uint (Z.to_N n)) eqn:E; try reflexivity.
  destruct (Z.to_N n) as [|p]; [discriminate|].
  now apply DecimalPos.Unsigned.to_uint_nonnil in E.
Qed.

Lemma decimal_then_separator (sep : Ascii.ascii) (n n' : Z)
  (rest rest' : string) :
  0 <= n -> 0 <= n' ->
  uint_of_char sep (Some Decimal.Nil) = None ->
  (decimal n ++ String sep rest)%string
  = (decimal n' ++ String sep rest')%string ->
  n = n' /\ rest = rest'.
Proof.
  intros Hn Hn' Hsep H. rewrite !decimal_digits in H.
  apply digits_then_separator in H as [Hd ->]; [|exact Hsep].
  split; [|reflexivity].
  apply (f_equal N.of_uint) in Hd.
  rewrite !DecimalN.Unsigned.of_to in Hd. lia.
Qed.

(** X19. Two captures are written to the same file only if they have the
    same orientation, step and slice: the file name determines the three
    numbers. *)
Theorem capture_files_are_distinct `{L : MathLibrary} (app app' : App)
  (data data' : list float32) (position_data position_data' : list Z)
  (dim_x dim_y dim_x' dim_y' : Z)
  (slice orientation step slice' orientation' step' : Z) :
  0 <= slice -> 0 <= orientation -> 0 <= step ->
  0 <= slice' -> 0 <= orientation' -> 0 <= step' ->
  (saveBitmap app data position_data dim_x dim_y slice orientation step).1
  = (saveBitmap app' data' position_data' dim_x' dim_y' slice' orientation'
                step').1 ->
  orientation = orientation' /\ step = step' /\ slice = slice'.
Proof.
  intros Hl Ho Hs Hl' Ho' Hs' H. unfold saveBitmap, capture_name in H.
  cbn [fst String.append] in H. injection H as H.
  apply decimal_then_separator in H as [-> H]; [|lia|lia|reflexivity].
  apply decimal_then_separator in H as [-> H]; [|lia|lia|reflexivity].
  apply decimal_then_separator in H as [-> _]; [|lia|lia|reflexivity].
  repeat split.
Qed.

Lemma capture_files_are_distinct_witness :
  (0 : Z) = 0 /\ (12 : Z) = 12 /\ (3 : Z) = 3.
Proof.
  apply (capture_files_are_distinct (Demo.at_step 12 1) (Demo.at_step 0 1)
           Demo.slice_data [] Demo.slice_positions [] 3 2 0 0
           3 0 12 3 0 12); try lia.
  reflexivity.
Defined.

(** ** Opposite pressures *)

Lemma mul_opposites (p : float32) :
  Float32.mul (SFopp p) (SFopp p) = Float32.mul p p.
Proof.
  destruct p as [s | s | | s m e]; try reflexivity; destruct s; reflexivity.
Qed.

Lemma opposite_of_positive (p : float32) :
  Float32.ltb Float32.zero p = true ->
  Float32.ltb Float32.zero (SFopp p) = false.
Proof.
  destruct p as [s | s | | s m e]; try discriminate; destruct s;
    try discriminate; reflexivity.
Qed.

(** X20. The encoding is symmetric in the sign of the pressure: where a
    cell with a positive pressure [p] gets a brightness on the green
    channel, a cell with the pressure [-p] gets the same brightness on the
    blue channel, both away from boundaries. *)
Theorem opposite_pressures_swap_channels `{L : MathLibrary} (app : App)
  (data : list float32) (position_data : list Z)
  (dim_x dim_y slice orientation step i j i' j' : Z) :
  dim_x * dim_y <= UINT_MOD ->
  0 <= i < dim_y -> 0 <= j < dim_x ->
  0 <= i' < dim_y -> 0 <= j' < dim_x ->
  is_boundary (read_uchar position_data (i * dim_x + j)) = false ->
  is_boundary (read_uchar position_data (i' * dim_x + j')) = false ->
  Float32.ltb Float32.zero (read_float data (i * dim_x + j)) = true ->
  read_float data (i' * dim_x + j')
  = SFopp (read_float data (i * dim_x + j)) ->
  let img :=
    (saveBitmap app data position_data dim_x dim_y slice orientation step).2
  in
  exists v,
    getPixel img i j = Some (mkColour 0 v 0 255)
    /\ getPixel img i' j' = Some (mkColour 0 0 v 255).
Proof.
  intros Hsize Hi Hj Hi' Hj' Hb Hb' Hpos Hopp img.
  exists (brightness
            (intensity (Float32.div (capture_db_ app) (Float32.of_Z 10))
                       (read_float data (i * dim_x + j)))).
  unfold img, saveBitmap. cbn [snd]. rewrite !render_rows_pixels.
  rewrite !decide_True by (split; assumption).
  unfold pixel_colour.
  rewrite !wrap_uint_small by (unfold is_uint; nia).
  rewrite Hb, Hb', Hpos, Hopp, (opposite_of_positive _ Hpos).
  unfold intensity. rewrite mul_opposites. split; reflexivity.
Qed.

(** The pressures 1 and -1 of the first row of the slice of [Demo]. *)
Lemma opposite_pressures_swap_channels_witness :
  exists v,
    getPixel
      (saveBitmap (Demo.at_step 12 1) Demo.slice_data Demo.slice_positions
                  3 2 3 0 12).2 0 0 = Some (mkColour 0 v 0 255)
    /\ getPixel
         (saveBitmap (Demo.at_step 12 1) Demo.slice_data
                     Demo.slice_positions 3 2 3 0 12).2 0 1
       = Some (mkColour 0 0 v 255).
Proof.
  apply (opposite_pressures_swap_channels (Demo.at_step 12 1)
           Demo.slice_data Demo.slice_positions 3 2 3 0 12 0 0 0 1);
    try (unfold UINT_MOD; lia); reflexivity.
Defined.

(** ** Reverberation estimates of an empty room *)

Lemma div_by_any_zero_not_finite (f d : float32) :
  (match d with S754_zero _ | S754_nan => True | _ => False end) ->
  not_finite (Float32.div f d).
Proof.
  destruct d as [s | s | | s m e]; try contradiction; intros _;
    destruct f; exact I.
Qed.

(** X21. For a geometry without triangles the absorption area is 0 and
    the Sabine estimate divides by it: the result is an infinity or NaN.
    The Eyring estimate is an infinity or NaN as well when the total
    surface area is 0. *)
Theorem estimates_of_empty_room `{R : RoomData} (app : App) (octave : Z) :
  getNumberOfTriangles (m_geometry app) <= 0 ->
  getTotalAborptionArea app octave = Float32.zero
  /\ not_finite (getSabine app octave)
  /\ (getTotalSurfaceArea (m_geometry app) = Float32.zero ->
      not_finite (getEyring app octave)).
Proof.
  intros Hn.
  assert (getTotalAborptionArea app octave = Float32.zero) as Ha
      by (unfold getTotalAborptionArea; now rewrite seqZ_nil).
  split; [exact Ha|]. split.
  - unfold getSabine. rewrite Ha. apply div_by_zero_not_finite.
  - intros Hs. unfold getEyring. rewrite Hs.
    apply div_by_any_zero_not_finite.
    destruct (logf _) as [s | s | | s m e]; exact I.
Qed.

Lemma estimates_of_empty_room_witness :
  getTotalAborptionArea (Demo.at_step 0 1) 0 = Float32.zero
  /\ not_finite (getSabine (Demo.at_step 0 1) 0)
  /\ not_finite (getEyring (Demo.at_step 0 1) 0).
Proof.
  destruct (estimates_of_empty_room (Demo.at_step 0 1) 0) as (Ha & Hs & He).
  - simpl. lia.
  - split; [exact Ha|]. split; [exact Hs | apply He; reflexivity].
Defined.

(** * The exact footprint, and the element limit through the mesh *)

(** ** The memory check against the exact footprint *)

(** C1. The claim fails on the code at a box of 512 x 1024 x 1024 cells of
    size 1 in single precision with one device of 100 MB: the estimate is
    536870912 nodes, whose footprint of 8 bytes each is 4294 MB and exceeds
    the 100 MB, yet the product [estimated_nodes*8] wraps to 0, the test
    [100 < 0] fails, and [initializeMesh] goes on to call the voxelizer, the
    mesh setup and [makePartition] and returns. *)
Theorem oversized_mesh_accepted :
  let app := Demo.app 512 1024 1024 false 4 [100] (-1) in
  estimated_nodes app = 536870912
  /\ isDouble (m_mesh app) = false
  /\ total_mem app = Some 100
  /\ exact_size_in_MB (estimated_nodes app) = 4294
  /\ mesh_size_in_MB (estimated_nodes app) = 0
  /\ (exists app', fst (initializeMesh 2 app) = Ok app')
  /\ snd (initializeMesh 2 app)
     = [EvVoxelize; EvSetupMesh false; EvMakePartition 1]
  /\ Exists (fun e => allocates e = true) (snd (initializeMesh 2 app)).
Proof.
  cbv zeta.
  assert (initializeMesh 2 (Demo.app 512 1024 1024 false 4 [100] (-1))
          = (Ok (with_mesh (makePartition 1 (mkMesh false 1000 0 []))
                   (with_num_elements 1000
                      (Demo.app 512 1024 1024 false 4 [100] (-1)))),
             [EvVoxelize; EvSetupMesh false; EvMakePartition 1])) as E
      by (vm_compute; reflexivity).
  rewrite E. cbn [fst snd].
  split; [vm_compute; reflexivity|]. split; [reflexivity|].
  split; [vm_compute; reflexivity|]. split; [vm_compute; reflexivity|].
  split; [vm_compute; reflexivity|]. split; [eauto|].
  split; [reflexivity|]. constructor. reflexivity.
Qed.

(** ** The element limit through [initializeMesh] *)

(** C9 as stated fails: a forced count of 0 is no valid count, yet it
    passes the test of line 222.  With 60e6 elements in single precision
    and one device, [initializeMesh] calls [makePartition(0)], not
    [makePartition(1)]; so the statement for every count outside
    [1 <= forced <= deviceCount] does not hold. *)
Lemma zero_forced_count_overrides_limit :
  (let app := Demo.app 100 100 100 false 4 [512] 0 in
   ~ (1 <= force_partition_to_ app <= number_of_devices_ app)
   /\ isDouble (m_mesh app) = false
   /\ (exists app',
          @initializeMesh Sample.sixty_million 2 app
          = (Ok app', [EvVoxelize; EvSetupMesh false; EvMakePartition 0])
          /\ num_elements_ app' = 60000000
          /\ getNumberOfPartitions (m_mesh app') = 0))
  /\ ~ (forall (K : KernelLayer) (n : Z) (app : App) (total : Z),
           memory_check app = (Ok total, []) ->
           45000000
           <= wrap_uint (voxelized_elements (m_geometry app)
                                            (getDx (m_parameters app)))
           < 90000000 ->
           ~ (1 <= force_partition_to_ app <= number_of_devices_ app) ->
           exists app',
             initializeMesh n app
             = (Ok app',
                [EvVoxelize; EvSetupMesh (isDouble (m_mesh app));
                 EvMakePartition
                   (if isDouble (m_mesh app) then n else 1)])).
Proof.
  split.
  - cbv zeta. split; [cbn; lia|]. split; [reflexivity|].
    eexists. split; [vm_compute; reflexivity|]. split; reflexivity.
  - intros H.
    destruct (H Sample.sixty_million 2
                (Demo.app 100 100 100 false 4 [512] 0) 512)
      as [app' E].
    + vm_compute. reflexivity.
    + vm_compute. split; [intros C; discriminate C | reflexivity].
    + cbn. lia.
    + vm_compute in E. discriminate.
Qed.

(** C9, as amended. The element limit is 90e6 for a single-precision mesh
    and 45e6 for a double-precision one.  When the forced count is -1 or
    exceeds the device count and the mesh set up from the voxelization has
    an element count from 45e6 up to, but not including, 90e6,
    [initializeMesh] partitions a single-precision mesh by 1 and a
    double-precision mesh by the count the caller asks for. *)
Theorem element_limit_decides_partitions `{K : KernelLayer} (n : Z)
  (app : App) (total : Z) :
  memory_check app = (Ok total, []) ->
  45000000
  <= wrap_uint (voxelized_elements (m_geometry app) (getDx (m_parameters app)))
  < 90000000 ->
  force_partition_to_ app = -1
  \/ number_of_devices_ app < force_partition_to_ app ->
  element_limit false = 90000000
  /\ element_limit true = 45000000
  /\ exists app',
      initializeMesh n app
      = (Ok app',
         [EvVoxelize; EvSetupMesh (isDouble (m_mesh app));
          EvMakePartition (if isDouble (m_mesh app) then n else 1)])
      /\ num_elements_ app'
         = wrap_uint (voxelized_elements (m_geometry app)
                                         (getDx (m_parameters app)))
      /\ isDouble (m_mesh app') = isDouble (m_mesh app)
      /\ getNumberOfPartitions (m_mesh app')
         = if isDouble (m_mesh app) then n else 1.
Proof.
  intros Hm He Hf. split; [reflexivity|]. split; [reflexivity|].
  pose proof (initializeMesh_accepts n app total Hm) as Hinit.
  cbv zeta in Hinit.
  set (app1 := with_num_elements _ _) in Hinit.
  assert (partition_count n app1 = if isDouble (m_mesh app) then n else 1)
    as Hcount.
  { unfold partition_count.
    assert (forced_accepted app1 = false) as ->
        by (apply forced_accepted_false; exact Hf).
    change (num_elements_ app1)
      with (wrap_uint (voxelized_elements (m_geometry app)
                                          (getDx (m_parameters app)))).
    change (isDouble (m_mesh app1)) with (isDouble (m_mesh app)).
    destruct (isDouble (m_mesh app)).
    - change (element_limit true) with 45000000.
      destruct (Z.ltb_spec
                  (wrap_uint (voxelized_elements (m_geometry app)
                                (getDx (m_parameters app)))) 45000000);
        [lia | reflexivity].
    - change (element_limit false) with 90000000.
      destruct (Z.ltb_spec
                  (wrap_uint (voxelized_elements (m_geometry app)
                                (getDx (m_parameters app)))) 90000000);
        [reflexivity | lia]. }
  rewrite Hcount in Hinit. eexists. split; [exact Hinit|].
  split; [reflexivity|]. split; [reflexivity|]. reflexivity.
Qed.

(** C9, amended, on boxes of 10^6 cells whose voxelization has 60e6
    elements, without a forced count: 1 partition in single precision, the
    requested 2 in double precision. *)
Lemma element_limit_decides_partitions_witness :
  (exists app',
      @initializeMesh Sample.sixty_million 2
        (Demo.app 100 100 100 false 4 [512] (-1))
      = (Ok app', [EvVoxelize; EvSetupMesh false; EvMakePartition 1])
      /\ getNumberOfPartitions (m_mesh app') = 1)
  /\ (exists app',
         @initializeMesh Sample.sixty_million 2
           (Demo.app 100 100 100 true 4 [512] (-1))
         = (Ok app', [EvVoxelize; EvSetupMesh true; EvMakePartition 2])
         /\ getNumberOfPartitions (m_mesh app') = 2).
Proof.
  split.
  - destruct (@element_limit_decides_partitions Sample.sixty_million 2
                (Demo.app 100 100 100 false 4 [512] (-1)) 512)
      as (_ & _ & app' & Hrun & _ & _ & Hparts).
    + vm_compute. reflexivity.
    + vm_compute. split; [intros C; discriminate C | reflexivity].
    + left. reflexivity.
    + exists app'. split; [exact Hrun | exact Hparts].
  - destruct (@element_limit_decides_partitions Sample.sixty_million 2
                (Demo.app 100 100 100 true 4 [512] (-1)) 512)
      as (_ & _ & app' & Hrun & _ & _ & Hparts).
    + vm_compute. reflexivity.
    + vm_compute. split; [intros C; discriminate C | reflexivity].
    + left. reflexivity.
    + exists app'. split; [exact Hrun | exact Hparts].
Defined.
